(** * Firmware version dashboard: the view pipeline and the fetch effect

    A shallow embedding of [src/firmware_version_dashboard.jsx]: the record
    type, the [filtered] and [lastUpdated] derivations, the release-date
    cell and the data-acquisition effect, with the ECMAScript built-ins they
    call ([String.prototype.trim], [toLowerCase], [includes], [replace],
    [Array.prototype.filter], [sort], [reduce], [Date]).

    Strings are sequences of code units; the development covers the code
    units below 256 (Rocq's [ascii]), on which [toLowerCase] and [trim] are
    written out exactly.  The functions whose result ECMAScript leaves to
    the host ([Date.parse] outside the interchange format, the two
    [localeCompare] collations) are fields of a [Host] record; theorems
    quantify over the host and examples run on [isoHost]. *)

From Stdlib Require Import List String Ascii ZArith Bool Lia Permutation Sorted DecimalString.
Import ListNotations.
Local Open Scope string_scope.
Local Open Scope Z_scope.

(** ** ECMAScript string built-ins *)

Module JSString.

(** Code unit of a character. *)
Definition code (c : ascii) : N := N_of_ascii c.

(** Simple lower-case mapping of one code unit below 256: [A]-[Z] and the
    Latin-1 capitals U+00C0..U+00DE, U+00D7 (the multiplication sign)
    excepted, move up by 32; everything else is unchanged. *)
Definition lowerChar (c : ascii) : ascii :=
  let n := code c in
  if ((65 <=? n) && (n <=? 90))%N then ascii_of_N (n + 32)
  else if ((192 <=? n) && (n <=? 222) && negb (n =? 215))%N then ascii_of_N (n + 32)
  else c.

(** [String.prototype.toLowerCase] *)
Fixpoint toLowerCase (s : string) : string :=
  match s with
  | EmptyString => EmptyString
  | String c s' => String (lowerChar c) (toLowerCase s')
  end.

(** WhiteSpace and LineTerminator code units below 256: TAB, LF, VT, FF,
    CR, SP and NBSP. *)
Definition isWhiteSpace (c : ascii) : bool :=
  let n := code c in
  (((9 <=? n) && (n <=? 13)) || (n =? 32) || (n =? 160))%N.

Fixpoint trimStart (s : string) : string :=
  match s with
  | EmptyString => EmptyString
  | String c s' => if isWhiteSpace c then trimStart s' else s
  end.

(** [trimEnd s] drops the trailing white space: a character is kept when it
    is not white space or when something is kept after it. *)
Fixpoint trimEnd (s : string) : string :=
  match s with
  | EmptyString => EmptyString
  | String c s' =>
      match trimEnd s' with
      | EmptyString => if isWhiteSpace c then EmptyString else String c EmptyString
      | t => String c t
      end
  end.

(** [String.prototype.trim] *)
Definition trim (s : string) : string := trimEnd (trimStart s).

(** [startsWith s p]: [p] is a prefix of [s]. *)
Fixpoint startsWith (s p : string) : bool :=
  match p, s with
  | EmptyString, _ => true
  | String _ _, EmptyString => false
  | String a p', String b s' => Ascii.eqb a b && startsWith s' p'
  end.

(** [String.prototype.includes]: [p] occurs in [s] at some position. *)
Fixpoint includes (s p : string) : bool :=
  startsWith s p ||
  match s with
  | EmptyString => false
  | String _ s' => includes s' p
  end.

Fixpoint drop (n : nat) (s : string) : string :=
  match n, s with
  | O, _ => s
  | S _, EmptyString => EmptyString
  | S n', String _ s' => drop n' s'
  end.

(** [String.prototype.replace] with a string pattern and a replacement
    without [$] patterns: the first occurrence is replaced. *)
Fixpoint replace (s pat rep : string) : string :=
  if startsWith s pat then rep ++ drop (String.length pat) s
  else match s with
       | EmptyString => EmptyString
       | String c s' => String c (replace s' pat rep)
       end.

End JSString.
Import JSString.

(** ** Data model *)

(** One element of [versions.json] / [INLINE_DATA].  [hardware_rev] and
    [notes] may be absent. *)
Record FirmwareRecord := mkRecord {
  product_code : string;
  product_name : string;
  hardware_rev : option string;
  channel : string;
  version : string;
  released_at : string;
  notes : option string
}.

Inductive SortKey := key_product_name | key_product_code | key_version | key_released_at.

Inductive DataMode := inline | remote.

Definition INLINE_DATA : list FirmwareRecord :=
  [ mkRecord "PW-SEN-AL7700" "Pacwave PIR Ceiling Sensor" (Some "A2") "approved"
             "1.4.2" "2025-08-20T09:15:00Z" (Some "Improved UART framing; fix delayed IRS.");
    mkRecord "PW-SEN-AL7700" "Pacwave PIR Ceiling Sensor" (Some "A2") "beta"
             "1.5.0-beta.2" "2025-08-21T02:01:00Z" (Some "Adds anti-rollback check.");
    mkRecord "BL652-GW" "Silvair BLE Mesh Gateway" (Some "B1") "approved"
             "3.2.0" "2025-08-15T18:00:00Z" (Some "Gateway stability fixes for 100+ nodes.");
    mkRecord "AL1039-I-CB" "DALI Controller (Casambi)" (Some "C0") "approved"
             "2.7.1" "2025-08-10T01:10:00Z" (Some "DT8 RGBW mapping safeguard.") ].

(** *** Further sample lists *)

(** A record whose [released_at] is not a date. *)
Definition undatedRecord : FirmwareRecord :=
  mkRecord "BL652-GW" "Silvair BLE Mesh Gateway" (Some "B1") "approved"
           "3.1.0" "" None.

(** A list with the undated record between two dated ones. *)
Definition undatedSample : list FirmwareRecord :=
  [ mkRecord "BL652-GW" "Silvair BLE Mesh Gateway" (Some "B1") "approved"
             "3.0.0" "2020-01-01T00:00:00Z" None;
    undatedRecord;
    mkRecord "BL652-GW" "Silvair BLE Mesh Gateway" (Some "B1") "approved"
             "3.2.0" "2021-01-01T00:00:00Z" None ].

(** A list whose only record was released the day before the fallback
    date of [lastUpdated]. *)
Definition preEpochSample : list FirmwareRecord :=
  [ mkRecord "AL1039-I-CB" "DALI Controller (Casambi)" (Some "C0") "approved"
             "0.1.0" "1969-12-31T00:00:00Z" None ].

(** A record on a channel that is neither "approved" nor "beta". *)
Definition nightlyRecord : FirmwareRecord :=
  mkRecord "BL652-GW" "Silvair BLE Mesh Gateway" (Some "B1") "nightly"
           "3.3.0" "2025-09-01T00:00:00Z" None.

(** The first record of [INLINE_DATA]. *)
Definition sensorRecord : FirmwareRecord :=
  mkRecord "PW-SEN-AL7700" "Pacwave PIR Ceiling Sensor" (Some "A2") "approved"
           "1.4.2" "2025-08-20T09:15:00Z" (Some "Improved UART framing; fix delayed IRS.").

Definition FirmwareRecord_eq_dec (a b : FirmwareRecord) : {a = b} + {a <> b}.
Proof.
  decide equality; try apply string_dec;
  decide equality; apply string_dec.
Defined.

(** ** The host *)

(** Time values are integral milliseconds since the epoch; [None] is NaN
    (an invalid date).  A [localeCompare] result is a finite Number. *)
Record Host := mkHost {
  Date_parse : string -> option Z;
  localeCompare : string -> string -> Z;
  localeCompareNumericBase : string -> string -> Z
}.

(** ** Completions *)

(** A thrown value: an Error object with its [name] and [message]. *)
Record Exn := mkExn { name : string; message : string }.

Inductive Completion (A : Type) :=
| Normal (a : A)
| Throw (e : Exn).
Arguments Normal {A} a.
Arguments Throw {A} e.

(** [String(e)] on an Error object: [Error.prototype.toString]. *)
Definition String_of_error (e : Exn) : string :=
  if String.eqb (name e) "" then message e
  else if String.eqb (message e) "" then name e
  else name e ++ ": " ++ message e.

(** ** ECMAScript dates *)

Module JSDate.

Definition msPerDay : Z := 86400000.
Definition Day (t : Z) : Z := t / msPerDay.
Definition TimeWithinDay (t : Z) : Z := t mod msPerDay.

(** Proleptic Gregorian date (year, month 1-12, day of month) of a day
    number counted from 1970-01-01, by 400-year eras starting on March 1. *)
Definition civil_from_days (z : Z) : Z * Z * Z :=
  let z := z + 719468 in
  let era := z / 146097 in
  let doe := z - era * 146097 in
  let yoe := (doe - doe / 1460 + doe / 36524 - doe / 146096) / 365 in
  let doy := doe - (365 * yoe + yoe / 4 - yoe / 100) in
  let mp := (5 * doy + 2) / 153 in
  let d := doy - (153 * mp + 2) / 5 + 1 in
  let m := if mp <? 10 then mp + 3 else mp - 9 in
  (if m <=? 2 then yoe + era * 400 + 1 else yoe + era * 400, m, d).

(** MakeDay, with the month counted from 1. *)
Definition MakeDay (year month date : Z) : Z :=
  let y := if month <=? 2 then year - 1 else year in
  let era := y / 400 in
  let yoe := y - era * 400 in
  let doy := (153 * (if 2 <? month then month - 3 else month + 9) + 2) / 5 + date - 1 in
  let doe := yoe * 365 + yoe / 4 - yoe / 100 + doy in
  era * 146097 + doe - 719468.

Definition MakeTime (hour min sec ms : Z) : Z :=
  hour * 3600000 + min * 60000 + sec * 1000 + ms.

Definition MakeDate (day time : Z) : Z := day * msPerDay + time.

(** TimeClip: a time value is at most 8.64e15 in magnitude. *)
Definition TimeClip (t : Z) : option Z :=
  if Z.abs t <=? 8640000000000000 then Some t else None.

Definition isLeapYear (y : Z) : bool :=
  (y mod 4 =? 0) && (negb (y mod 100 =? 0) || (y mod 400 =? 0)).

Definition DaysInMonth (y m : Z) : Z :=
  if m =? 2 then (if isLeapYear y then 29 else 28)
  else if (m =? 4) || (m =? 6) || (m =? 9) || (m =? 11) then 30
  else 31.

(** *** Printing *)

Definition digitChar (d : Z) : ascii := ascii_of_N (48 + Z.to_N d).

(** [pad w n]: the [w] low decimal digits of [n], most significant first. *)
Fixpoint pad (w : nat) (n : Z) : string :=
  match w with
  | O => EmptyString
  | S w' => String (digitChar ((n / 10 ^ Z.of_nat w') mod 10)) (pad w' n)
  end.

Definition yearString (y : Z) : string :=
  if (0 <=? y) && (y <=? 9999) then pad 4 y
  else (if y <? 0 then "-" else "+") ++ pad 6 (Z.abs y).

(** The date and time to the second, [YYYY-MM-DDTHH:mm:ss]. *)
Definition isoSeconds (t : Z) : string :=
  let '(y, m, d) := civil_from_days (Day t) in
  let w := TimeWithinDay t in
  yearString y ++ "-" ++ pad 2 m ++ "-" ++ pad 2 d ++ "T"
    ++ pad 2 (w / 3600000) ++ ":" ++ pad 2 (w / 60000 mod 60) ++ ":"
    ++ pad 2 (w / 1000 mod 60).

Definition msFromTime (t : Z) : Z := t mod 1000.

(** The string [Date.prototype.toISOString] returns for a finite time
    value. *)
Definition isoString (t : Z) : string :=
  isoSeconds t ++ "." ++ pad 3 (msFromTime t) ++ "Z".

Definition RangeError_invalid_time : Exn := mkExn "RangeError" "Invalid time value".

(** [Date.prototype.toISOString]: throws on an invalid date. *)
Definition toISOString (tv : option Z) : Completion string :=
  match tv with
  | Some t => Normal (isoString t)
  | None => Throw RangeError_invalid_time
  end.

(** *** Parsing the interchange format *)

Definition digitVal (c : ascii) : option Z :=
  let n := code c in
  if ((48 <=? n) && (n <=? 57))%N then Some (Z.of_N n - 48) else None.

Fixpoint readDigits (w : nat) (acc : Z) (s : string) : option (Z * string) :=
  match w with
  | O => Some (acc, s)
  | S w' =>
      match s with
      | String c s' =>
          match digitVal c with
          | Some d => readDigits w' (10 * acc + d) s'
          | None => None
          end
      | EmptyString => None
      end
  end.

Definition expect (c : ascii) (s : string) : option string :=
  match s with
  | String c' s' => if Ascii.eqb c c' then Some s' else None
  | EmptyString => None
  end.

Definition bind {A B} (o : option A) (f : A -> option B) : option B :=
  match o with
  | Some a => f a
  | None => None
  end.

Notation "x <- e1 ;; e2" := (bind e1 (fun x => e2))
  (at level 61, e1 at next level, right associativity).
Notation "' p <- e1 ;; e2" := (bind e1 (fun x => let 'p := x in e2))
  (at level 61, p pattern, e1 at next level, right associativity).

(** [YYYY], or a sign and six digits ([-000000] is not a year). *)
Definition parseYear (s : string) : option (Z * string) :=
  match s with
  | String "+"%char s' => readDigits 6 0 s'
  | String "-"%char s' =>
      '(y, rest) <- readDigits 6 0 s' ;;
      if y =? 0 then None else Some (- y, rest)
  | _ => readDigits 4 0 s
  end.

(** After the seconds: [Z], or [.sss] and [Z], and nothing more. *)
Definition parseFraction (s : string) : option Z :=
  match s with
  | "Z" => Some 0
  | String "."%char s' =>
      '(ms, rest) <- readDigits 3 0 s' ;;
      match rest with
      | "Z" => Some ms
      | _ => None
      end
  | _ => None
  end.

(** [HH:mm:ss], the optional fraction and the UTC designator, as
    milliseconds within the day.  Hour 24 is midnight at the end of the
    day. *)
Definition parseTime (s : string) : option Z :=
  '(h, s) <- readDigits 2 0 s ;;
  s <- expect ":" s ;;
  '(mi, s) <- readDigits 2 0 s ;;
  s <- expect ":" s ;;
  '(sec, s) <- readDigits 2 0 s ;;
  ms <- parseFraction s ;;
  if (mi <=? 59) && (sec <=? 59)
     && ((h <=? 23) || ((h =? 24) && (mi =? 0) && (sec =? 0) && (ms =? 0)))
  then Some (MakeTime h mi sec ms)
  else None.

(** [Date.parse] on the complete UTC forms of the interchange format,
    [YYYY-MM-DD] and [YYYY-MM-DDTHH:mm:ss(.sss)Z] with a four-digit or an
    expanded year; an illegal element value gives NaN.  Every other string
    is NaN here. *)
Definition parseISO (s : string) : option Z :=
  '(y, s) <- parseYear s ;;
  s <- expect "-" s ;;
  '(m, s) <- readDigits 2 0 s ;;
  s <- expect "-" s ;;
  '(d, s) <- readDigits 2 0 s ;;
  if (1 <=? m) && (m <=? 12) && (1 <=? d) && (d <=? DaysInMonth y m) then
    match s with
    | EmptyString => TimeClip (MakeDate (MakeDay y m d) 0)
    | String "T"%char s' =>
        w <- parseTime s' ;;
        TimeClip (MakeDate (MakeDay y m d) w)
    | _ => None
    end
  else None.

End JSDate.

(** Code-unit order of two strings, as a Number of sign -1, 0 or 1. *)
Fixpoint codeUnitCompare (a b : string) : Z :=
  match a, b with
  | EmptyString, EmptyString => 0
  | EmptyString, String _ _ => -1
  | String _ _, EmptyString => 1
  | String x a', String y b' =>
      if (code x <? code y)%N then -1
      else if (code y <? code x)%N then 1
      else codeUnitCompare a' b'
  end.

(** A host for running examples: the interchange-format parser and the
    code-unit collation for both [localeCompare] calls. *)
Definition isoHost : Host := mkHost JSDate.parseISO codeUnitCompare codeUnitCompare.

(** ** [Array.prototype.sort] *)

Section Sort.
Context {A : Type}.
(** A comparator returns a Number; [None] is NaN. *)
Variable comparefn : A -> A -> option Z.

(** SortCompare: a NaN result counts as [+0]. *)
Definition SortCompare (x y : A) : Z :=
  match comparefn x y with
  | None => 0
  | Some v => v
  end.

Fixpoint insert (x : A) (l : list A) : list A :=
  match l with
  | [] => [x]
  | y :: l' => if SortCompare x y <=? 0 then x :: l else y :: insert x l'
  end.

(** The sort, as a stable insertion sort: an element goes before the
    first later element it does not compare greater than.  ECMAScript
    fixes the result of [sort] (sorted and stable) for a consistent
    comparator, and leaves the order to the implementation otherwise; the
    theorems on the order therefore state what makes the comparator
    consistent. *)
Fixpoint sort (l : list A) : list A :=
  match l with
  | [] => []
  | x :: l' => insert x (sort l')
  end.
End Sort.

(** ** The view pipeline *)

Section View.
Variable host : Host.

(** [new Date(s).getTime()] *)
Definition getTime (s : string) : option Z := Date_parse host s.

(** Number subtraction; NaN is absorbing.  Time values are integers of
    magnitude at most 8.64e15, so the sign of the double difference is
    the sign of the exact one, and [sort] reads the sign only. *)
Definition sub (a b : option Z) : option Z :=
  match a, b with
  | Some x, Some y => Some (x - y)
  | _, _ => None
  end.

(** [a > b] on Numbers: false when either is NaN. *)
Definition gt (a b : option Z) : bool :=
  match a, b with
  | Some x, Some y => y <? x
  | _, _ => false
  end.

(** [a[sortKey]] *)
Definition field (sortKey : SortKey) (r : FirmwareRecord) : string :=
  match sortKey with
  | key_product_name => product_name r
  | key_product_code => product_code r
  | key_version => version r
  | key_released_at => released_at r
  end.

(** The comparator passed to [sort] (lines 102-111). *)
Definition compareFn (sortKey : SortKey) (a b : FirmwareRecord) : option Z :=
  match sortKey with
  | key_released_at => sub (getTime (released_at b)) (getTime (released_at a))
  | key_version => Some (localeCompareNumericBase host (version b) (version a))
  | _ => Some (localeCompare host (field sortKey a) (field sortKey b))
  end.

(** First filter callback (line 95). *)
Definition channelPass (showBeta : bool) (r : FirmwareRecord) : bool :=
  if showBeta then true else negb (String.eqb (channel r) "beta").

(** [r.hardware_rev || ""] *)
Definition hardware_rev_or_empty (r : FirmwareRecord) : string :=
  match hardware_rev r with
  | Some s => s
  | None => ""
  end.

(** Second filter callback (lines 97-100). *)
Definition textPass (needle : string) (r : FirmwareRecord) : bool :=
  includes (toLowerCase (product_name r)) needle
  || includes (toLowerCase (product_code r)) needle
  || includes (toLowerCase (hardware_rev_or_empty r)) needle.

Definition needle_of (q : string) : string := toLowerCase (trim q).

(** The two [filter] calls, before the sort. *)
Definition filterStep (records : list FirmwareRecord) (q : string) (showBeta : bool)
  : list FirmwareRecord :=
  filter (textPass (needle_of q)) (filter (channelPass showBeta) records).

(** [filtered] (lines 92-112). *)
Definition filtered (records : list FirmwareRecord) (q : string) (showBeta : bool)
           (sortKey : SortKey) : list FirmwareRecord :=
  sort (compareFn sortKey) (filterStep records q showBeta).

Definition EPOCH : string := "1970-01-01T00:00:00Z".

(** The callback of the [reduce] of line 115; the accumulator is a
    [released_at] string. *)
Definition reducer (acc : string) (r : FirmwareRecord) : string :=
  if gt (getTime (released_at r)) (getTime acc) then released_at r else acc.

(** [records.reduce(reducer, "1970-01-01T00:00:00Z")] *)
Definition latest (records : list FirmwareRecord) : string :=
  fold_left reducer records EPOCH.

(** [lastUpdated] (lines 114-117), as the time value of the Date. *)
Definition lastUpdated (records : list FirmwareRecord) : option Z :=
  getTime (latest records).

(** Badge of a card (lines 173-180). *)
Definition isApproved (r : FirmwareRecord) : bool := String.eqb (channel r) "approved".
Definition badgeLabel (r : FirmwareRecord) : string :=
  if isApproved r then "Approved" else "Beta".

End View.

(** ** The release-date cell *)

(** Line 191: [new Date(r.released_at).toISOString().replace(".000Z", "Z")]. *)
Definition releaseDateCell (host : Host) (r : FirmwareRecord) : Completion string :=
  match JSDate.toISOString (getTime host (released_at r)) with
  | Normal s => Normal (replace s ".000Z" "Z")
  | Throw e => Throw e
  end.

(** ** Data acquisition *)

(** What the component reads of a [Response]: [status], and the outcome of
    [json()], which rejects with a SyntaxError when the body does not
    parse.  The payload is used as the record list without validation. *)
Record Response := mkResponse {
  status : N;
  json : Completion (list FirmwareRecord)
}.

(** [Response.ok]: the status is in the range 200-299. *)
Definition ok (r : Response) : bool := ((200 <=? status r) && (status r <=? 299))%N.

(** Number::toString on a non-negative integer. *)
Definition NumberToString (n : N) : string := NilZero.string_of_uint (N.to_uint n).

(** The six [useState] slots of the component. *)
Record State := mkState {
  records : list FirmwareRecord;
  loading : bool;
  error : option string;
  q : string;
  showBeta : bool;
  sortKey : SortKey
}.

Definition initialState (DATA_MODE : DataMode) : State :=
  mkState INLINE_DATA (match DATA_MODE with remote => true | inline => false end)
          None "" false key_product_name.

Definition setRecords (v : list FirmwareRecord) (s : State) : State :=
  mkState v (loading s) (error s) (q s) (showBeta s) (sortKey s).
Definition setLoading (v : bool) (s : State) : State :=
  mkState (records s) v (error s) (q s) (showBeta s) (sortKey s).
Definition setError (v : option string) (s : State) : State :=
  mkState (records s) (loading s) v (q s) (showBeta s) (sortKey s).

(** A promise, run to settlement: the reactions may update the state, and
    the promise is fulfilled with a value or rejected with a reason. *)
Definition Promise (A : Type) : Type := State -> State * Completion A.

Definition resolved {A} (c : Completion A) : Promise A := fun s => (s, c).

(** [p.then(f)] *)
Definition then_ {A B} (p : Promise A) (f : A -> Promise B) : Promise B :=
  fun s =>
    match p s with
    | (s', Normal a) => f a s'
    | (s', Throw e) => (s', Throw e)
    end.

(** [p.catch(h)] *)
Definition catch_ {A} (p : Promise A) (h : Exn -> Promise A) : Promise A :=
  fun s =>
    match p s with
    | (s', Normal a) => (s', Normal a)
    | (s', Throw e) => h e s'
    end.

(** [p.finally(g)]: [g] runs on either outcome, and the outcome of [p]
    stands unless [g] throws. *)
Definition finally_ {A} (p : Promise A) (g : Promise unit) : Promise A :=
  fun s =>
    match p s with
    | (s', c) =>
        match g s' with
        | (s'', Normal _) => (s'', c)
        | (s'', Throw e) => (s'', Throw e)
        end
    end.

(** A state setter called from a reaction; the reaction returns
    [undefined]. *)
Definition call (f : State -> State) : Promise unit := fun s => (f s, Normal tt).

Definition HTTP_error (r : Response) : Exn :=
  mkExn "Error" ("HTTP " ++ NumberToString (status r)).

(** The promise chain of lines 78-88, on the outcome of [fetch]. *)
Definition fetchChain (fetched : Completion Response) : Promise unit :=
  finally_
    (catch_
       (then_
          (then_ (resolved fetched)
                 (fun r => if negb (ok r) then resolved (Throw (HTTP_error r))
                           else resolved (json r)))
          (fun json => then_ (call (setRecords json)) (fun _ => call (setError None))))
       (fun e => call (setError (Some (String_of_error e)))))
    (call (setLoading false)).

(** The mount effect (lines 75-90): the state once the chain has
    settled. *)
Definition fetchEffect (DATA_MODE : DataMode) (fetched : Completion Response) (s : State)
  : State :=
  match DATA_MODE with
  | remote => fst (fetchChain fetched (setLoading true s))
  | inline => s
  end.

(** The reason a fetch fails with, if it does: the rejection of [fetch],
    the error thrown on a non-success status, or the rejection of
    [json()]. *)
Definition failureReason (fetched : Completion Response) : option Exn :=
  match fetched with
  | Throw e => Some e
  | Normal r =>
      if ok r then
        match json r with
        | Throw e => Some e
        | Normal _ => None
        end
      else Some (HTTP_error r)
  end.

(** The status line (line 129), up to the locale rendering of the date. *)
Inductive StatusLine :=
| Refreshing
| ErrorLine (text : string)
| LastUpdatedLine (t : option Z).

Definition statusLine (host : Host) (s : State) : StatusLine :=
  if loading s then Refreshing
  else match error s with
       | Some e => if String.eqb e "" then LastUpdatedLine (lastUpdated host (records s))
                   else ErrorLine ("Error: " ++ e)
       | None => LastUpdatedLine (lastUpdated host (records s))
       end.

(** ** Vocabulary of the properties *)

(** Order-preserving sub-list. *)
Inductive Sublist {A : Type} : list A -> list A -> Prop :=
| Sublist_nil : Sublist [] []
| Sublist_skip x l1 l2 : Sublist l1 l2 -> Sublist l1 (x :: l2)
| Sublist_cons x l1 l2 : Sublist l1 l2 -> Sublist (x :: l1) (x :: l2).

(** A comparison function that orders the strings as a total preorder:
    of two strings one does not sort after the other, and "does not sort
    after" is transitive.  ECMAScript requires this of [localeCompare]
    (it is a consistent comparison function). *)
Definition total_preorder (cmp : string -> string -> Z) : Prop :=
  (forall a b, 0 < cmp a b -> cmp b a <= 0)
  /\ (forall a b c, cmp a b <= 0 -> cmp b c <= 0 -> cmp a c <= 0).

(** [a >= b] on Numbers: false when either is NaN. *)
Definition ge (a b : option Z) : bool :=
  match a, b with
  | Some x, Some y => y <=? x
  | _, _ => false
  end.

(** The parsed [released_at] of each record, in order. *)
Definition times (host : Host) (L : list FirmwareRecord) : list (option Z) :=
  map (fun r => getTime host (released_at r)) L.

(** A sequence of Numbers in which no element is followed, anywhere later,
    by one it is not [>=] to. *)
Definition nonIncreasing (ts : list (option Z)) : Prop :=
  StronglySorted (fun a b => ge a b = true) ts.

(** [m] is the maximum of the [released_at] timestamps of [L]: some record
    has it, and every record has a timestamp that is at most [m]. *)
Definition maxReleasedAt (host : Host) (L : list FirmwareRecord) (m : Z) : Prop :=
  (exists r, In r L /\ getTime host (released_at r) = Some m)
  /\ (forall r, In r L -> exists t, getTime host (released_at r) = Some t /\ t <= m).

(** Every [released_at] of [L] parses to a valid date. *)
Definition allDatesValid (host : Host) (L : list FirmwareRecord) : Prop :=
  Forall (fun r => getTime host (released_at r) <> None) L.

(** No code unit of the string is a full stop. *)
Fixpoint noDot (s : string) : bool :=
  match s with
  | EmptyString => true
  | String c s' => negb (Ascii.eqb c ".") && noDot s'
  end.

(** [s] ends with [suffix]. *)
Definition EndsWith (s suffix : string) : Prop := exists pre, s = pre ++ suffix.

(** ** The controls and the cards *)

(** The handlers of the search box, the show-beta check box and the
    sort selector (lines 141, 150 and 158). *)
Definition setQ (v : string) (s : State) : State :=
  mkState (records s) (loading s) (error s) v (showBeta s) (sortKey s).
Definition setShowBeta (v : bool) (s : State) : State :=
  mkState (records s) (loading s) (error s) (q s) v (sortKey s).
Definition setSortKey (v : SortKey) (s : State) : State :=
  mkState (records s) (loading s) (error s) (q s) (showBeta s) v.

(** [filtered], as the component computes it from its state. *)
Definition view (host : Host) (s : State) : list FirmwareRecord :=
  filtered host (records s) (q s) (showBeta s) (sortKey s).

(** An optional string used as a condition: absent and empty are falsy. *)
Definition truthy (o : option string) : option string :=
  match o with
  | Some s => if String.eqb s "" then None else Some s
  | None => None
  end.

(** What one card shows (lines 165-205): its React key, the heading, the
    product code with the hardware revision when there is one, the badge
    and its tooltip, the version, the release-date cell and the notes when
    there are some. *)
Record Card := mkCard {
  card_key : string;
  card_heading : string;
  card_code : string;
  card_hardware_rev : option string;
  card_badge : string;
  card_badge_title : string;
  card_version : string;
  card_release_date : string;
  card_notes : option string
}.

(** The callback of [filtered.map] (lines 164-206).  The release-date
    cell is the one expression of the card that can throw. *)
Definition renderCard (host : Host) (r : FirmwareRecord) : Completion Card :=
  match releaseDateCell host r with
  | Normal date =>
      Normal (mkCard (product_code r ++ "-" ++ version r ++ "-" ++ channel r)
                     (product_name r)
                     (product_code r)
                     (truthy (hardware_rev r))
                     (badgeLabel r)
                     (if isApproved r then "Approved (factory should use this)"
                      else "Beta (for internal/QA)")
                     (version r)
                     date
                     (truthy (notes r)))
  | Throw e => Throw e
  end.

(** [Array.prototype.map] with a callback that may throw: the first throw
    ends the call. *)
Fixpoint mapCompletion {A B : Type} (f : A -> Completion B) (l : list A)
  : Completion (list B) :=
  match l with
  | [] => Normal []
  | x :: l' =>
      match f x with
      | Throw e => Throw e
      | Normal y =>
          match mapCompletion f l' with
          | Normal ys => Normal (y :: ys)
          | Throw e => Throw e
          end
      end
  end.

(** The cards of the grid (line 164). *)
Definition renderCards (host : Host) (s : State) : Completion (list Card) :=
  mapCompletion (renderCard host) (view host s).

(** Every code unit of the string is white space. *)
Fixpoint allWhiteSpace (s : string) : bool :=
  match s with
  | EmptyString => true
  | String c s' => isWhiteSpace c && allWhiteSpace s'
  end.

(** [p] occurs in [s]. *)
Definition Contains (s p : string) : Prop := exists pre post, s = pre ++ p ++ post.

(** * Properties *)

(** ** Strings *)

Example builtins_on_samples :
  trim "  PW sen  " = "PW sen"
  /\ toLowerCase "BL652-GW" = "bl652-gw"
  /\ includes "silvair ble mesh gateway" "ble" = true
  /\ includes "silvair ble mesh gateway" "dali" = false
  /\ replace "2025-08-20T09:15:00.000Z" ".000Z" "Z" = "2025-08-20T09:15:00Z"
  /\ replace "2025-08-20T09:15:00.250Z" ".000Z" "Z" = "2025-08-20T09:15:00.250Z".
Proof. repeat split; reflexivity. Qed.

Lemma startsWith_empty (s : string) : startsWith s "" = true.
Proof. destruct s; reflexivity. Qed.

Lemma includes_empty (s : string) : includes s "" = true.
Proof. destruct s; reflexivity. Qed.

Lemma startsWith_spec (s p : string) :
  startsWith s p = true <-> exists rest, s = p ++ rest.
Proof.
  revert s; induction p as [|a p IH]; intros s; simpl.
  - split; [exists s; reflexivity | intros _; apply startsWith_empty].
  - destruct s as [|b s]; simpl.
    + split; [discriminate | intros [rest H]; discriminate].
    + rewrite andb_true_iff, IH, Ascii.eqb_eq. split.
      * intros [-> [rest ->]]. now exists rest.
      * intros [rest H]. injection H as -> ->. split; [reflexivity | now exists rest].
Qed.

Lemma includes_nil (p : string) : includes "" p = startsWith "" p.
Proof. simpl. apply orb_false_r. Qed.

Lemma includes_cons (c : ascii) (s p : string) :
  includes (String c s) p = startsWith (String c s) p || includes s p.
Proof. reflexivity. Qed.

(** [includes] is substring occurrence. *)
Lemma includes_spec (s p : string) :
  includes s p = true <-> exists pre post, s = pre ++ p ++ post.
Proof.
  induction s as [|c s IH].
  - rewrite includes_nil, startsWith_spec. split.
    + intros [rest H]. now exists "", rest.
    + intros [pre [post H]]. destruct pre; [now exists post | discriminate].
  - rewrite includes_cons, orb_true_iff, startsWith_spec, IH. split.
    + intros [[rest H] | [pre [post H]]].
      * now exists "", rest.
      * exists (String c pre), post. simpl. now rewrite H.
    + intros [pre [post H]]. destruct pre as [|c' pre]; simpl in H.
      * left. now exists post.
      * right. injection H as -> ->. now exists pre, post.
Qed.

Lemma append_empty_r (s : string) : s ++ "" = s.
Proof. induction s; simpl; [reflexivity | now f_equal]. Qed.

Lemma append_assoc (a b c : string) : (a ++ b) ++ c = a ++ b ++ c.
Proof. induction a; simpl; [reflexivity | now f_equal]. Qed.

Lemma includes_app_r (pre p : string) : includes (pre ++ p) p = true.
Proof.
  apply includes_spec. exists pre, "". now rewrite append_empty_r.
Qed.

(** ** Lists *)

#[local] Hint Constructors Sublist : core.

Section ListFacts.
Context {A : Type}.
Variable f : A -> bool.

Lemma Sublist_refl (l : list A) : Sublist l l.
Proof. induction l; auto. Qed.

Lemma Sublist_trans (l1 l2 l3 : list A) :
  Sublist l1 l2 -> Sublist l2 l3 -> Sublist l1 l3.
Proof.
  intros H12 H23. revert l1 H12.
  induction H23; intros l0 H12; auto.
  inversion H12; subst; auto.
Qed.

Lemma Sublist_In (l1 l2 : list A) (x : A) : Sublist l1 l2 -> In x l1 -> In x l2.
Proof.
  induction 1; simpl; auto.
  intros [-> | H']; auto.
Qed.

Lemma Sublist_count (dec : forall a b : A, {a = b} + {a <> b}) (l1 l2 : list A) (x : A) :
  Sublist l1 l2 -> (count_occ dec l1 x <= count_occ dec l2 x)%nat.
Proof.
  induction 1; simpl; auto; destruct (dec x0 x); lia.
Qed.

Lemma filter_Sublist (l : list A) : Sublist (filter f l) l.
Proof. induction l as [|x l IH]; simpl; auto. destruct (f x); auto. Qed.

Lemma filter_idem (l : list A) : filter f (filter f l) = filter f l.
Proof.
  induction l as [|x l IH]; simpl; auto.
  destruct (f x) eqn:E; simpl; rewrite ?E, IH; reflexivity.
Qed.

Lemma filter_comm (g : A -> bool) (l : list A) :
  filter f (filter g l) = filter g (filter f l).
Proof.
  induction l as [|x l IH]; simpl; auto.
  destruct (g x) eqn:Eg, (f x) eqn:Ef; simpl; rewrite ?Eg, ?Ef, IH; reflexivity.
Qed.

Lemma filter_Permutation (l l' : list A) :
  Permutation l l' -> Permutation (filter f l) (filter f l').
Proof.
  induction 1; simpl; auto.
  - destruct (f x); auto.
  - destruct (f x), (f y); auto. apply perm_swap.
  - eapply perm_trans; eauto.
Qed.
End ListFacts.

(** ** The sort permutes *)

Section SortFacts.
Context {A : Type}.
Variable comparefn : A -> A -> option Z.

Lemma insert_Permutation (x : A) (l : list A) :
  Permutation (insert comparefn x l) (x :: l).
Proof.
  induction l as [|y l IH]; simpl; auto.
  destruct (SortCompare comparefn x y <=? 0); auto.
  eapply perm_trans; [apply perm_skip, IH | apply perm_swap].
Qed.

Lemma sort_Permutation (l : list A) : Permutation (sort comparefn l) l.
Proof.
  induction l as [|x l IH]; simpl; auto.
  eapply perm_trans; [apply insert_Permutation | auto].
Qed.

Lemma sort_In (l : list A) (x : A) : In x (sort comparefn l) <-> In x l.
Proof.
  split; apply Permutation_in;
    [apply sort_Permutation | apply Permutation_sym, sort_Permutation].
Qed.
(** A list that is already in order is left as it is. *)
Lemma sort_sorted_id (l : list A) :
  StronglySorted (fun x y => SortCompare comparefn x y <= 0) l -> sort comparefn l = l.
Proof.
  induction 1 as [|x l Hs IH Hx]; simpl; [reflexivity|].
  rewrite IH. destruct Hx as [|y l' Hxy _]; simpl; [reflexivity|].
  apply Z.leb_le in Hxy. now rewrite Hxy.
Qed.
End SortFacts.

(** ** The filters *)

Lemma channelPass_false (r : FirmwareRecord) :
  channelPass false r = true <-> channel r <> "beta".
Proof.
  unfold channelPass. rewrite negb_true_iff. apply String.eqb_neq.
Qed.

Lemma needle_of_blank (q : string) : trim q = "" -> needle_of q = "".
Proof. unfold needle_of. now intros ->. Qed.

Lemma textPass_empty (r : FirmwareRecord) : textPass "" r = true.
Proof. unfold textPass. now rewrite includes_empty. Qed.

Lemma filterStep_Sublist (L : list FirmwareRecord) (q : string) (showBeta : bool) :
  Sublist (filterStep L q showBeta) L.
Proof.
  unfold filterStep.
  eapply Sublist_trans; apply filter_Sublist.
Qed.

Lemma filterStep_idem (L : list FirmwareRecord) (q : string) (showBeta : bool) :
  filterStep (filterStep L q showBeta) q showBeta = filterStep L q showBeta.
Proof.
  unfold filterStep.
  rewrite (filter_comm (channelPass showBeta) (textPass (needle_of q))
                       (filter (channelPass showBeta) L)).
  now rewrite (filter_idem (channelPass showBeta)), (filter_idem (textPass (needle_of q))).
Qed.

Lemma filterStep_Permutation (L L' : list FirmwareRecord) (q : string) (showBeta : bool) :
  Permutation L L' -> Permutation (filterStep L q showBeta) (filterStep L' q showBeta).
Proof. intros H. unfold filterStep. now do 2 apply filter_Permutation. Qed.

Lemma filtered_Permutation (host : Host) (L : list FirmwareRecord) (q : string)
      (showBeta : bool) (sortKey : SortKey) :
  Permutation (filtered host L q showBeta sortKey) (filterStep L q showBeta).
Proof. apply sort_Permutation. Qed.

(** C3.  With show-beta off, the channel filter keeps exactly the records
    of [L] whose channel is not "beta", and no record of the filtered view
    has channel "beta"; with show-beta on it keeps the whole list,
    whatever the channels; in both cases its output is a sub-list of
    [L]. *)
Theorem C3_beta_filter (L : list FirmwareRecord) :
  (forall r, In r (filter (channelPass false) L) <-> In r L /\ channel r <> "beta")
  /\ (forall host q sortKey r,
         In r (filtered host L q false sortKey) -> channel r <> "beta")
  /\ filter (channelPass true) L = L
  /\ (forall showBeta, Sublist (filter (channelPass showBeta) L) L)
  /\ (forall showBeta r, In r (filter (channelPass showBeta) L) -> In r L).
Proof.
  assert (K : forall r, In r (filter (channelPass false) L)
                        <-> In r L /\ channel r <> "beta").
  { intros r. rewrite filter_In, channelPass_false. reflexivity. }
  split; [exact K|]. split; [|split; [|split]].
  - intros host q sortKey r H.
    apply sort_In in H. unfold filterStep in H.
    apply filter_In in H as [H _]. now apply K in H.
  - apply filter_true.
  - intros sb. apply filter_Sublist.
  - intros sb r H. now apply filter_In in H.
Qed.

(** C4.  Filtering is idempotent: the two filters applied to their own
    output return it unchanged, and the filtered view of a filtered view
    (same query, same show-beta flag) is a permutation of it, so holds the
    same records. *)
Theorem C4_filter_idempotent (host : Host) (L : list FirmwareRecord) (q : string)
        (showBeta : bool) (sortKey : SortKey) :
  filterStep (filterStep L q showBeta) q showBeta = filterStep L q showBeta
  /\ Permutation (filtered host (filtered host L q showBeta sortKey) q showBeta sortKey)
                 (filtered host L q showBeta sortKey)
  /\ (forall r, In r (filtered host (filtered host L q showBeta sortKey) q showBeta sortKey)
                <-> In r (filtered host L q showBeta sortKey)).
Proof.
  assert (P : Permutation
                (filtered host (filtered host L q showBeta sortKey) q showBeta sortKey)
                (filtered host L q showBeta sortKey)).
  { eapply perm_trans; [apply filtered_Permutation|].
    eapply perm_trans;
      [apply filterStep_Permutation, filtered_Permutation|].
    rewrite filterStep_idem. apply Permutation_sym, filtered_Permutation. }
  split; [apply filterStep_idem | split; [exact P|]].
  intros r. split; apply Permutation_in; [exact P | now apply Permutation_sym].
Qed.

(** C7.  A record whose channel is neither "approved" nor "beta" passes
    the channel filter under both show-beta settings, so the filter keeps
    it wherever it occurs; it fails the "approved" test and gets the
    non-approved badge. *)
Theorem C7_unknown_channel_accepted (r : FirmwareRecord) :
  channel r <> "approved" -> channel r <> "beta" ->
  channelPass true r = true
  /\ channelPass false r = true
  /\ (forall L showBeta, In r L -> In r (filter (channelPass showBeta) L))
  /\ isApproved r = false
  /\ badgeLabel r = "Beta".
Proof.
  intros Ha Hb.
  assert (Hf : channelPass false r = true) by now apply channelPass_false.
  assert (Hn : isApproved r = false) by now apply String.eqb_neq.
  repeat split; auto.
  - intros L sb H. apply filter_In. split; [exact H | now destruct sb].
  - unfold badgeLabel. now rewrite Hn.
Qed.

Lemma C7_unknown_channel_accepted_witness :
  (channel nightlyRecord <> "approved" /\ channel nightlyRecord <> "beta")
  /\ channelPass true nightlyRecord = true /\ channelPass false nightlyRecord = true.
Proof.
  assert (Ha : channel nightlyRecord <> "approved") by discriminate.
  assert (Hb : channel nightlyRecord <> "beta") by discriminate.
  destruct (C7_unknown_channel_accepted nightlyRecord Ha Hb) as [H1 [H2 _]].
  split; [split; assumption | split; assumption].
Defined.

(** C8.  A query that is empty or trims to empty matches every record:
    for every sort key the filtered view is the sort of the
    show-beta-filtered list, hence a permutation of it. *)
Theorem C8_empty_query (host : Host) (L : list FirmwareRecord) (q : string)
        (showBeta : bool) (sortKey : SortKey) :
  trim q = "" ->
  filterStep L q showBeta = filter (channelPass showBeta) L
  /\ filtered host L q showBeta sortKey
     = sort (compareFn host sortKey) (filter (channelPass showBeta) L)
  /\ Permutation (filtered host L q showBeta sortKey) (filter (channelPass showBeta) L)
  /\ (forall r, In r (filtered host L q showBeta sortKey)
                <-> In r (filter (channelPass showBeta) L)).
Proof.
  intros Hq.
  assert (E : filterStep L q showBeta = filter (channelPass showBeta) L).
  { unfold filterStep. rewrite (needle_of_blank q Hq).
    rewrite (filter_ext (textPass "") (fun _ => true) textPass_empty).
    apply filter_true. }
  split; [exact E|]. unfold filtered. rewrite E.
  split; [reflexivity|]. split; [apply sort_Permutation | apply sort_In].
Qed.

Lemma C8_empty_query_witness :
  trim "   " = ""
  /\ Permutation (filtered isoHost INLINE_DATA "   " false key_released_at)
                 (filter (channelPass false) INLINE_DATA).
Proof.
  split; [reflexivity|].
  destruct (C8_empty_query isoHost INLINE_DATA "   " false key_released_at eq_refl)
    as [_ [_ [H _]]].
  exact H.
Defined.

(** C10.  The filtered view is a permutation of a sub-list of the input:
    every record of the output occurs in the input, and no record occurs
    more often in the output than in the input. *)
Theorem C10_view_is_sub_multiset (host : Host) (L : list FirmwareRecord) (q : string)
        (showBeta : bool) (sortKey : SortKey) :
  (exists S, Sublist S L /\ Permutation (filtered host L q showBeta sortKey) S)
  /\ (forall r, In r (filtered host L q showBeta sortKey) -> In r L)
  /\ (forall r, (count_occ FirmwareRecord_eq_dec (filtered host L q showBeta sortKey) r
                 <= count_occ FirmwareRecord_eq_dec L r)%nat)
  /\ (List.length (filtered host L q showBeta sortKey) <= List.length L)%nat.
Proof.
  pose proof (filterStep_Sublist L q showBeta) as HS.
  pose proof (filtered_Permutation host L q showBeta sortKey) as HP.
  repeat split.
  - exists (filterStep L q showBeta). now split.
  - intros r H. eapply Sublist_In; [exact HS|]. eapply Permutation_in; eauto.
  - intros r.
    rewrite (Permutation_count_occ FirmwareRecord_eq_dec) in HP. rewrite HP.
    now apply Sublist_count.
  - rewrite (Permutation_length HP). unfold filterStep.
    etransitivity; apply filter_length_le.
Qed.

(** ** The sort orders *)

Section SortSorted.
Context {A : Type}.
Variable comparefn : A -> A -> option Z.
Variable P : A -> Prop.

Let le (x y : A) : Prop := SortCompare comparefn x y <= 0.

Hypothesis total : forall x y, P x -> P y -> 0 < SortCompare comparefn x y -> le y x.
Hypothesis trans : forall x y z, P x -> P y -> P z -> le x y -> le y z -> le x z.

Lemma insert_In (x y : A) (l : list A) :
  In y (insert comparefn x l) <-> y = x \/ In y l.
Proof.
  split.
  - intros H. apply (Permutation_in _ (insert_Permutation comparefn x l)) in H.
    destruct H; auto.
  - intros H.
    apply (Permutation_in _ (Permutation_sym (insert_Permutation comparefn x l))).
    destruct H; [left | right]; auto.
Qed.

Lemma insert_sorted (x : A) (l : list A) :
  P x -> Forall P l -> StronglySorted le l -> StronglySorted le (insert comparefn x l).
Proof.
  intros Px Pl Hs. induction l as [|y l IH]; simpl.
  - constructor; constructor.
  - apply StronglySorted_inv in Hs as [Hs Hy].
    inversion Pl as [|? ? Py Pl']; subst.
    destruct (SortCompare comparefn x y <=? 0) eqn:E.
    + apply Z.leb_le in E. constructor.
      * constructor; assumption.
      * constructor; [exact E|].
        rewrite Forall_forall in *. intros z Hz.
        apply (trans x y z); auto.
    + apply Z.leb_gt in E. constructor.
      * apply IH; assumption.
      * rewrite Forall_forall in *. intros z Hz.
        apply insert_In in Hz as [-> | Hz]; [apply total; assumption | auto].
Qed.

Lemma sort_sorted (l : list A) : Forall P l -> StronglySorted le (sort comparefn l).
Proof.
  induction l as [|x l IH]; intros Pl; simpl.
  - constructor.
  - inversion Pl as [|? ? Px Pl']; subst.
    apply insert_sorted; auto.
    rewrite Forall_forall in *. intros y Hy. apply Pl'.
    now apply (sort_In comparefn).
Qed.
End SortSorted.

Lemma StronglySorted_map {A B : Type} (f : A -> B) (R : B -> B -> Prop) (l : list A) :
  StronglySorted (fun a b => R (f a) (f b)) l -> StronglySorted R (map f l).
Proof.
  induction 1 as [|a l Hs IH Hf]; simpl; constructor; auto.
  rewrite Forall_forall in *. intros b Hb.
  apply in_map_iff in Hb as [x [<- Hx]]. auto.
Qed.

Lemma StronglySorted_weaken {A : Type} (R R' : A -> A -> Prop) (l : list A) :
  (forall a b, In a l -> In b l -> R a b -> R' a b) ->
  StronglySorted R l -> StronglySorted R' l.
Proof.
  intros HR Hs. induction Hs as [|a l Hs IH Hf]; constructor.
  - apply IH. intros; apply HR; simpl; auto.
  - rewrite Forall_forall in *. intros b Hb. apply HR; simpl; auto.
Qed.

Lemma filterStep_Forall (Q : FirmwareRecord -> Prop) (L : list FirmwareRecord)
      (q : string) (showBeta : bool) :
  Forall Q L -> Forall Q (filterStep L q showBeta).
Proof.
  rewrite !Forall_forall. intros H r Hr. apply H.
  eapply Sublist_In; [apply filterStep_Sublist | exact Hr].
Qed.

(** With valid dates on both sides, the release-date comparator is the
    difference of the time values. *)
Lemma SortCompare_released_at (host : Host) (a b : FirmwareRecord) (ta tb : Z) :
  getTime host (released_at a) = Some ta ->
  getTime host (released_at b) = Some tb ->
  SortCompare (compareFn host key_released_at) a b = tb - ta.
Proof.
  intros Ha Hb. unfold SortCompare, compareFn. now rewrite Ha, Hb.
Qed.

(** C5, as amended.  When every [released_at] of the list parses to a
    valid date, the view sorted by release date carries non-increasing
    timestamps: each record's timestamp is at least that of every record
    after it. *)
Theorem C5_release_date_descending (host : Host) (L : list FirmwareRecord) (q : string)
        (showBeta : bool) :
  allDatesValid host L ->
  nonIncreasing (times host (filtered host L q showBeta key_released_at)).
Proof.
  intros Hv. unfold nonIncreasing, times, filtered.
  apply StronglySorted_map.
  set (valid := fun r => getTime host (released_at r) <> None).
  assert (Hs : StronglySorted
                 (fun x y => SortCompare (compareFn host key_released_at) x y <= 0)
                 (sort (compareFn host key_released_at) (filterStep L q showBeta))).
  { apply (sort_sorted _ valid).
    - intros x y Hx Hy. unfold valid in Hx, Hy.
      destruct (getTime host (released_at x)) as [tx|] eqn:Ex; [|congruence].
      destruct (getTime host (released_at y)) as [ty|] eqn:Ey; [|congruence].
      rewrite (SortCompare_released_at host x y tx ty Ex Ey),
              (SortCompare_released_at host y x ty tx Ey Ex). lia.
    - intros x y z Hx Hy Hz. unfold valid in Hx, Hy, Hz.
      destruct (getTime host (released_at x)) as [tx|] eqn:Ex; [|congruence].
      destruct (getTime host (released_at y)) as [ty|] eqn:Ey; [|congruence].
      destruct (getTime host (released_at z)) as [tz|] eqn:Ez; [|congruence].
      rewrite (SortCompare_released_at host x y tx ty Ex Ey),
              (SortCompare_released_at host y z ty tz Ey Ez),
              (SortCompare_released_at host x z tx tz Ex Ez). lia.
    - now apply filterStep_Forall. }
  revert Hs. apply StronglySorted_weaken. intros a b Ha Hb Hab.
  assert (Hva : valid a /\ valid b).
  { assert (F : Forall valid (sort (compareFn host key_released_at)
                                   (filterStep L q showBeta))).
    { rewrite Forall_forall. intros r Hr. apply sort_In in Hr.
      revert r Hr. apply Forall_forall. now apply filterStep_Forall. }
    rewrite Forall_forall in F. split; apply F; assumption. }
  destruct Hva as [Hva Hvb]. unfold valid in Hva, Hvb.
  destruct (getTime host (released_at a)) as [ta|] eqn:Ea; [|congruence].
  destruct (getTime host (released_at b)) as [tb|] eqn:Eb; [|congruence].
  rewrite (SortCompare_released_at host a b ta tb Ea Eb) in Hab.
  simpl. apply Z.leb_le. lia.
Qed.

Lemma C5_release_date_descending_witness :
  allDatesValid isoHost INLINE_DATA
  /\ nonIncreasing (times isoHost (filtered isoHost INLINE_DATA "" true key_released_at)).
Proof.
  assert (H : allDatesValid isoHost INLINE_DATA).
  { unfold allDatesValid, INLINE_DATA. repeat constructor; vm_compute; discriminate. }
  split; [exact H|].
  exact (C5_release_date_descending isoHost INLINE_DATA "" true H).
Defined.

(** C5 as stated fails on [undatedSample]: every comparison with the
    undated record is NaN, read as "equal", so the sort leaves the list as
    it is, with the 2020 record before the 2021 record. *)
Lemma C5_every_list_counterexample :
  times isoHost (filtered isoHost undatedSample "" true key_released_at)
  = [Some 1577836800000; None; Some 1609459200000]
  /\ ~ nonIncreasing (times isoHost (filtered isoHost undatedSample "" true key_released_at)).
Proof.
  assert (E : times isoHost (filtered isoHost undatedSample "" true key_released_at)
              = [Some 1577836800000; None; Some 1609459200000]) by (vm_compute; reflexivity).
  split; [exact E|]. rewrite E. unfold nonIncreasing. intros H.
  apply StronglySorted_inv in H as [_ H].
  inversion H as [|? ? H1 _]. discriminate H1.
Qed.

(** ** Sorting by a string key *)

Lemma codeUnitCompare_total_preorder : total_preorder codeUnitCompare.
Proof.
  split.
  - intros a. induction a as [|x a IH]; intros [|y b]; simpl; try lia.
    destruct (N.ltb_spec (code x) (code y)), (N.ltb_spec (code y) (code x));
      try lia. apply IH.
  - intros a. induction a as [|x a IH]; intros [|y b] [|z c]; simpl; try lia.
    destruct (N.ltb_spec (code x) (code y)), (N.ltb_spec (code y) (code x)),
      (N.ltb_spec (code y) (code z)), (N.ltb_spec (code z) (code y)),
      (N.ltb_spec (code x) (code z)), (N.ltb_spec (code z) (code x));
      try lia. apply IH.
Qed.

Lemma sorted_by_string_key (host : Host) (key : FirmwareRecord -> string)
      (comparefn : FirmwareRecord -> FirmwareRecord -> option Z) (l : list FirmwareRecord) :
  total_preorder (localeCompare host) ->
  (forall a b, comparefn a b = Some (localeCompare host (key a) (key b))) ->
  StronglySorted (fun a b => localeCompare host (key a) (key b) <= 0) (sort comparefn l).
Proof.
  intros [Htot Htr] Hc.
  assert (E : forall a b, SortCompare comparefn a b = localeCompare host (key a) (key b)).
  { intros a b. unfold SortCompare. now rewrite Hc. }
  assert (Hs : StronglySorted (fun x y => SortCompare comparefn x y <= 0) (sort comparefn l)).
  { apply (sort_sorted _ (fun _ => True)).
    - intros x y _ _. rewrite !E. apply Htot.
    - intros x y z _ _ _. rewrite !E. apply Htr.
    - apply Forall_forall. auto. }
  revert Hs. apply StronglySorted_weaken. intros a b _ _. now rewrite E.
Qed.

(** C9.  When the host's [localeCompare] orders the strings as a total
    preorder, the view sorted by product name, and likewise by product
    code, is non-decreasing under [localeCompare] on that field: no record
    sorts after a record that follows it. *)
Theorem C9_string_keys_ascending (host : Host) (L : list FirmwareRecord) (q : string)
        (showBeta : bool) :
  total_preorder (localeCompare host) ->
  StronglySorted (fun a b => localeCompare host (product_name a) (product_name b) <= 0)
                 (filtered host L q showBeta key_product_name)
  /\ StronglySorted (fun a b => localeCompare host (product_code a) (product_code b) <= 0)
                    (filtered host L q showBeta key_product_code).
Proof.
  intros H. split; unfold filtered; apply sorted_by_string_key; auto.
Qed.

Lemma C9_string_keys_ascending_witness :
  StronglySorted (fun a b => codeUnitCompare (product_name a) (product_name b) <= 0)
                 (filtered isoHost INLINE_DATA "" true key_product_name)
  /\ StronglySorted (fun a b => codeUnitCompare (product_code a) (product_code b) <= 0)
                    (filtered isoHost INLINE_DATA "" true key_product_code).
Proof.
  exact (C9_string_keys_ascending isoHost INLINE_DATA "" true codeUnitCompare_total_preorder).
Defined.

(** ** Last updated *)

Lemma reduce_from (host : Host) (L : list FirmwareRecord) (acc : string) (a : Z) :
  getTime host acc = Some a ->
  exists m,
    getTime host (fold_left (reducer host) L acc) = Some m
    /\ a <= m
    /\ (forall r t, In r L -> getTime host (released_at r) = Some t -> t <= m)
    /\ (m = a \/ exists r, In r L /\ getTime host (released_at r) = Some m).
Proof.
  revert acc a. induction L as [|x L IH]; intros acc a Ha; simpl.
  - exists a. repeat split; [exact Ha | lia | contradiction | now left].
  - unfold reducer at 2.
    destruct (getTime host (released_at x)) as [tx|] eqn:Ex; rewrite Ha; simpl.
    + destruct (a <? tx) eqn:E.
      * apply Z.ltb_lt in E.
        destruct (IH (released_at x) tx Ex) as [m [Hm [Hle [Hub Hin]]]].
        exists m. repeat split; [exact Hm | lia | |].
        -- intros r t [<- | Hr] Ht; [rewrite Ex in Ht; injection Ht as <-; exact Hle
                                     | eapply Hub; eauto].
        -- right. destruct Hin as [-> | [r [Hr Hm']]]; [exists x | exists r]; auto.
      * apply Z.ltb_ge in E.
        destruct (IH acc a Ha) as [m [Hm [Hle [Hub Hin]]]].
        exists m. repeat split; [exact Hm | exact Hle | |].
        -- intros r t [<- | Hr] Ht; [rewrite Ex in Ht; injection Ht as <-; lia
                                     | eapply Hub; eauto].
        -- destruct Hin as [-> | [r [Hr Hm']]]; [now left | right; exists r; auto].
    + destruct (IH acc a Ha) as [m [Hm [Hle [Hub Hin]]]].
      exists m. repeat split; [exact Hm | exact Hle | |].
      * intros r t [<- | Hr] Ht; [congruence | eapply Hub; eauto].
      * destruct Hin as [-> | [r [Hr Hm']]]; [now left | right; exists r; auto].
Qed.

(** C1, as amended.  On a host that reads the fallback string as time 0:
    over the empty list [lastUpdated] is the fallback timestamp; over any
    list it is a valid date [m], the greatest among time 0 and the
    [released_at] timestamps that parse; so when every [released_at]
    parses and some record is not older than the fallback, [m] is the
    maximum [released_at] of the whole list. *)
Theorem C1_last_updated (host : Host) :
  getTime host EPOCH = Some 0 ->
  (latest host [] = "1970-01-01T00:00:00Z" /\ lastUpdated host [] = Some 0)
  /\ (forall L, exists m,
         lastUpdated host L = Some m
         /\ 0 <= m
         /\ (forall r t, In r L -> getTime host (released_at r) = Some t -> t <= m)
         /\ (m = 0 \/ exists r, In r L /\ getTime host (released_at r) = Some m))
  /\ (forall L,
         allDatesValid host L ->
         (exists r t, In r L /\ getTime host (released_at r) = Some t /\ 0 <= t) ->
         exists m, lastUpdated host L = Some m /\ maxReleasedAt host L m).
Proof.
  intros H0. split; [split; [reflexivity | exact H0]|]. split.
  - intros L. apply (reduce_from host L EPOCH 0 H0).
  - intros L Hv [r0 [t0 [Hr0 [Ht0 Hpos]]]].
    destruct (reduce_from host L EPOCH 0 H0) as [m [Hm [Hle [Hub Hin]]]].
    exists m. split; [exact Hm|]. split.
    + destruct Hin as [-> | Hin]; [|exact Hin].
      exists r0. split; [exact Hr0|].
      rewrite Ht0. f_equal. specialize (Hub r0 t0 Hr0 Ht0). lia.
    + intros r Hr. unfold allDatesValid in Hv. rewrite Forall_forall in Hv.
      specialize (Hv r Hr).
      destruct (getTime host (released_at r)) as [t|] eqn:Et; [|congruence].
      exists t. split; [reflexivity | eapply Hub; eauto].
Qed.

Lemma C1_last_updated_witness :
  getTime isoHost EPOCH = Some 0
  /\ exists m, lastUpdated isoHost INLINE_DATA = Some m /\ maxReleasedAt isoHost INLINE_DATA m.
Proof.
  split; [reflexivity|].
  destruct (C1_last_updated isoHost eq_refl) as [_ [_ H]].
  apply H.
  - unfold allDatesValid, INLINE_DATA. repeat constructor; vm_compute; discriminate.
  - eexists; exists 1755681300000. split; [left; reflexivity|].
    split; [reflexivity | discriminate].
Defined.

(** C1 as stated fails on [preEpochSample]: the list is not empty and
    its maximum [released_at] is 1969-12-31, yet [lastUpdated] is the
    fallback. *)
Lemma C1_max_of_non_empty_counterexample :
  preEpochSample <> []
  /\ maxReleasedAt isoHost preEpochSample (-86400000)
  /\ lastUpdated isoHost preEpochSample = Some 0
  /\ ~ (exists m, lastUpdated isoHost preEpochSample = Some m
                  /\ maxReleasedAt isoHost preEpochSample m).
Proof.
  split; [discriminate|]. split; [|split; [reflexivity|]].
  - split.
    + eexists. split; [left; reflexivity | reflexivity].
    + intros r [<- | []]. exists (-86400000). split; [reflexivity | lia].
  - intros [m [Hm [[r [[<- | []] Hr]] _]]].
    vm_compute in Hm, Hr. congruence.
Qed.

(** [lastUpdated] reads the whole list: on the sample data it is the date
    of the beta record, also while show-beta is off and the view hides
    that record. *)
Example lastUpdated_ignores_filters :
  lastUpdated isoHost INLINE_DATA = Some 1755741660000
  /\ times isoHost (filtered isoHost INLINE_DATA "" false key_released_at)
     = [Some 1755681300000; Some 1755280800000; Some 1754788200000].
Proof. split; vm_compute; reflexivity. Qed.

(** ** The fetch effect *)

Lemma String_of_HTTP_error (r : Response) :
  String_of_error (HTTP_error r) = "Error: HTTP " ++ NumberToString (status r).
Proof. reflexivity. Qed.

(** The state after a fetch that fails with reason [e]. *)
Lemma fetchEffect_failure (fetched : Completion Response) (s : State) (e : Exn) :
  failureReason fetched = Some e ->
  fetchEffect remote fetched s
  = mkState (records s) false (Some (String_of_error e)) (q s) (showBeta s) (sortKey s).
Proof.
  unfold failureReason, fetchEffect, fetchChain, finally_, catch_, then_, resolved, call.
  destruct fetched as [r|e0]; simpl.
  - destruct (ok r); simpl.
    + destruct (json r) as [v|e1]; simpl; [discriminate|].
      now intros [= ->].
    + now intros [= <-].
  - now intros [= ->].
Qed.

(** The state after a fetch that succeeds with payload [v]. *)
Lemma fetchEffect_success (r : Response) (v : list FirmwareRecord) (s : State) :
  ok r = true -> json r = Normal v ->
  fetchEffect remote (Normal r) s
  = mkState v false None (q s) (showBeta s) (sortKey s).
Proof.
  unfold fetchEffect, fetchChain, finally_, catch_, then_, resolved, call.
  simpl. intros -> ->. reflexivity.
Qed.

Lemma fetchEffect_loading (fetched : Completion Response) (s : State) :
  loading (fetchEffect remote fetched s) = false.
Proof.
  destruct (failureReason fetched) as [e|] eqn:E.
  - now rewrite (fetchEffect_failure fetched s e E).
  - unfold failureReason in E. destruct fetched as [r|e0]; [|discriminate].
    destruct (ok r) eqn:Eok; [|discriminate].
    destruct (json r) as [v|e1] eqn:Ej; [|discriminate].
    now rewrite (fetchEffect_success r v s Eok Ej).
Qed.

(** C2.  In remote mode, a fetch that fails with reason [e] (the fetch
    rejects, the status is not a success status, or [json()] rejects)
    leaves the record list as it was, sets the error message to
    [String(e)] and clears the loading flag; when the failure is a status,
    the message is "Error: HTTP " followed by the status code, so it and
    the status line contain the code.  The loading flag is cleared after
    every fetch, failed or not. *)
Theorem C2_fetch_failure (fetched : Completion Response) (s : State) (e : Exn) :
  failureReason fetched = Some e ->
  records (fetchEffect remote fetched s) = records s
  /\ error (fetchEffect remote fetched s) = Some (String_of_error e)
  /\ loading (fetchEffect remote fetched s) = false
  /\ (forall r, fetched = Normal r -> ok r = false ->
        String_of_error e = "Error: HTTP " ++ NumberToString (status r)
        /\ includes (String_of_error e) (NumberToString (status r)) = true
        /\ forall host, exists text,
             statusLine host (fetchEffect remote fetched s) = ErrorLine text
             /\ includes text (NumberToString (status r)) = true)
  /\ (forall fetched' s', loading (fetchEffect remote fetched' s') = false).
Proof.
  intros H. rewrite (fetchEffect_failure fetched s e H). simpl.
  split; [reflexivity|]. split; [reflexivity|]. split; [reflexivity|].
  split; [|intros; apply fetchEffect_loading].
  intros r -> Hok. unfold failureReason in H. rewrite Hok in H.
  injection H as <-. rewrite String_of_HTTP_error.
  split; [reflexivity|]. split; [apply includes_app_r|].
  intros host. unfold statusLine. simpl.
  eexists. split; [reflexivity|].
  exact (includes_app_r "Error: Error: HTTP " (NumberToString (status r))).
Qed.

Lemma C2_fetch_failure_witness :
  let fetched := Normal (mkResponse 500 (Normal [])) in
  let s := fetchEffect remote fetched (initialState remote) in
  failureReason fetched = Some (mkExn "Error" "HTTP 500")
  /\ records s = INLINE_DATA
  /\ error s = Some "Error: HTTP 500"
  /\ loading s = false.
Proof.
  intros fetched s.
  split; [reflexivity|].
  destruct (C2_fetch_failure fetched (initialState remote) (mkExn "Error" "HTTP 500") eq_refl)
    as [H1 [H2 [H3 _]]].
  split; [exact H1|]. split; [exact H2 | exact H3].
Defined.

(** ** The release-date cell *)

Lemma noDot_app (a b : string) : noDot (a ++ b) = noDot a && noDot b.
Proof.
  induction a as [|c a IH]; simpl; [reflexivity|].
  now rewrite IH, andb_assoc.
Qed.

Lemma digitChar_not_dot (n : Z) : Ascii.eqb (JSDate.digitChar (n mod 10)) "." = false.
Proof.
  assert (H : 0 <= n mod 10 < 10) by (apply Z.mod_pos_bound; lia).
  assert (C : n mod 10 = 0 \/ n mod 10 = 1 \/ n mod 10 = 2 \/ n mod 10 = 3
              \/ n mod 10 = 4 \/ n mod 10 = 5 \/ n mod 10 = 6 \/ n mod 10 = 7
              \/ n mod 10 = 8 \/ n mod 10 = 9) by lia.
  repeat (destruct C as [-> | C]; [reflexivity|]). now rewrite C.
Qed.

Lemma noDot_pad (w : nat) (n : Z) : noDot (JSDate.pad w n) = true.
Proof.
  induction w as [|w IH]; simpl; [reflexivity|].
  now rewrite digitChar_not_dot, IH.
Qed.

Lemma noDot_yearString (y : Z) : noDot (JSDate.yearString y) = true.
Proof.
  unfold JSDate.yearString.
  destruct ((0 <=? y) && (y <=? 9999)); [apply noDot_pad|].
  destruct (y <? 0); rewrite noDot_app, noDot_pad; reflexivity.
Qed.

Lemma noDot_isoSeconds (t : Z) : noDot (JSDate.isoSeconds t) = true.
Proof.
  unfold JSDate.isoSeconds.
  destruct (JSDate.civil_from_days (JSDate.Day t)) as [[y m] d].
  repeat rewrite noDot_app.
  now rewrite noDot_yearString, !noDot_pad.
Qed.

Lemma startsWith_cons (a b : ascii) (s p : string) :
  startsWith (String b s) (String a p) = Ascii.eqb a b && startsWith s p.
Proof. reflexivity. Qed.

Lemma replace_cons_miss (c : ascii) (s pat rep : string) :
  startsWith (String c s) pat = false ->
  replace (String c s) pat rep = String c (replace s pat rep).
Proof.
  intros H.
  change (replace (String c s) pat rep)
    with (if startsWith (String c s) pat
          then rep ++ drop (String.length pat) (String c s)
          else String c (replace s pat rep)).
  now rewrite H.
Qed.

(** A pattern that starts with a full stop is not found before the first
    full stop. *)
Lemma replace_skips_noDot (p rest pat rep : string) :
  noDot p = true ->
  replace (p ++ rest) (String "." pat) rep = p ++ replace rest (String "." pat) rep.
Proof.
  intros H. induction p as [|c p IH]; [reflexivity|].
  simpl in H. apply andb_true_iff in H as [Hc Hp].
  apply negb_true_iff in Hc. rewrite Ascii.eqb_sym in Hc.
  change (String c p ++ rest) with (String c (p ++ rest)).
  rewrite replace_cons_miss; [now rewrite (IH Hp)|].
  now rewrite startsWith_cons, Hc.
Qed.

(** The first full stop of a string with a single one splits it in one
    way only. *)
Lemma split_at_dot (p a pre b : string) :
  noDot p = true -> noDot a = true ->
  p ++ String "." a = pre ++ String "." b -> p = pre /\ a = b.
Proof.
  intros Hp Ha. revert pre. induction p as [|c p IH]; intros pre H.
  - destruct pre as [|c' pre]; simpl in H.
    + injection H as ->. now split.
    + injection H as <- ->. rewrite noDot_app in Ha. simpl in Ha.
      now rewrite andb_false_r in Ha.
  - simpl in Hp. apply andb_true_iff in Hp as [Hc Hp].
    destruct pre as [|c' pre]; simpl in H.
    + injection H as -> _. discriminate Hc.
    + injection H as <- H. destruct (IH Hp pre H) as [-> ->]. now split.
Qed.

Lemma digitChar_zero (n : Z) :
  JSDate.digitChar (n mod 10) = "0"%char -> n mod 10 = 0.
Proof.
  assert (H : 0 <= n mod 10 < 10) by (apply Z.mod_pos_bound; lia).
  assert (C : n mod 10 = 0 \/ n mod 10 = 1 \/ n mod 10 = 2 \/ n mod 10 = 3
              \/ n mod 10 = 4 \/ n mod 10 = 5 \/ n mod 10 = 6 \/ n mod 10 = 7
              \/ n mod 10 = 8 \/ n mod 10 = 9) by lia.
  destruct C as [C | C]; [auto|].
  repeat (destruct C as [C | C]; [rewrite C; discriminate|]).
  rewrite C; discriminate.
Qed.

(** The three digits of a millisecond count are all zero only for zero. *)
Lemma pad3_zero (ms : Z) :
  0 <= ms < 1000 -> JSDate.pad 3 ms = "000" -> ms = 0.
Proof.
  intros Hr H. simpl in H. injection H as H2 H1 H0.
  apply digitChar_zero in H2, H1, H0.
  change (10 ^ 2) with 100 in H2. change (10 ^ 1) with 10 in H1.
  change (10 ^ 0) with 1 in H0.
  revert H2 H1 H0. Z.div_mod_to_equations. lia.
Qed.

(** [replace(".000Z", "Z")] on a fraction: the three digits and the
    designator go when the digits are zeros, and nothing changes
    otherwise. *)
Lemma replace_fraction (c2 c1 c0 : ascii) :
  Ascii.eqb "." c2 = false -> Ascii.eqb "." c1 = false -> Ascii.eqb "." c0 = false ->
  replace (String "." (String c2 (String c1 (String c0 "Z")))) ".000Z" "Z"
  = if Ascii.eqb "0" c2 && Ascii.eqb "0" c1 && Ascii.eqb "0" c0 then "Z"
    else String "." (String c2 (String c1 (String c0 "Z"))).
Proof.
  intros D2 D1 D0.
  assert (S : startsWith (String "." (String c2 (String c1 (String c0 "Z")))) ".000Z"
              = Ascii.eqb "0" c2 && Ascii.eqb "0" c1 && Ascii.eqb "0" c0).
  { rewrite !startsWith_cons.
    change (Ascii.eqb "." ".") with true. change (Ascii.eqb "Z" "Z") with true.
    change (startsWith "" "") with true.
    now rewrite !andb_true_r, andb_true_l, andb_assoc. }
  destruct (Ascii.eqb "0" c2 && Ascii.eqb "0" c1 && Ascii.eqb "0" c0) eqn:E.
  - change (replace (String "." (String c2 (String c1 (String c0 "Z")))) ".000Z" "Z")
      with (if startsWith (String "." (String c2 (String c1 (String c0 "Z")))) ".000Z"
            then "Z" else String "." (replace (String c2 (String c1 (String c0 "Z")))
                                              ".000Z" "Z")).
    now rewrite S.
  - rewrite replace_cons_miss by exact S.
    rewrite replace_cons_miss by now rewrite startsWith_cons, D2.
    rewrite replace_cons_miss by now rewrite startsWith_cons, D1.
    rewrite replace_cons_miss by now rewrite startsWith_cons, D0.
    reflexivity.
Qed.

(** What [replace(".000Z", "Z")] does to the ISO string of [t]. *)
Lemma replace_isoString (t : Z) :
  replace (JSDate.isoString t) ".000Z" "Z"
  = JSDate.isoSeconds t
    ++ (if JSDate.msFromTime t =? 0 then "Z"
        else "." ++ JSDate.pad 3 (JSDate.msFromTime t) ++ "Z").
Proof.
  unfold JSDate.isoString.
  rewrite (replace_skips_noDot _ _ "000Z" "Z" (noDot_isoSeconds t)).
  f_equal.
  assert (Hr : 0 <= JSDate.msFromTime t < 1000)
    by (unfold JSDate.msFromTime; apply Z.mod_pos_bound; lia).
  pose proof (pad3_zero _ Hr) as Hz.
  remember (JSDate.msFromTime t) as ms. clear Heqms t.
  change ("." ++ JSDate.pad 3 ms ++ "Z")
    with (String "." (String (JSDate.digitChar (ms / 10 ^ 2 mod 10))
                    (String (JSDate.digitChar (ms / 10 ^ 1 mod 10))
                       (String (JSDate.digitChar (ms / 10 ^ 0 mod 10)) "Z")))) in *.
  change (JSDate.pad 3 ms)
    with (String (JSDate.digitChar (ms / 10 ^ 2 mod 10))
            (String (JSDate.digitChar (ms / 10 ^ 1 mod 10))
               (String (JSDate.digitChar (ms / 10 ^ 0 mod 10)) ""))) in Hz.
  set (c2 := JSDate.digitChar (ms / 10 ^ 2 mod 10)) in *.
  set (c1 := JSDate.digitChar (ms / 10 ^ 1 mod 10)) in *.
  set (c0 := JSDate.digitChar (ms / 10 ^ 0 mod 10)) in *.
  rewrite replace_fraction
    by (rewrite Ascii.eqb_sym; apply digitChar_not_dot).
  assert (Z0 : ms = 0 -> Ascii.eqb "0" c2 && Ascii.eqb "0" c1 && Ascii.eqb "0" c0 = true)
    by (intros E; unfold c2, c1, c0; rewrite E; reflexivity).
  destruct (ms =? 0) eqn:E.
  - apply Z.eqb_eq in E. now rewrite (Z0 E).
  - apply Z.eqb_neq in E.
    destruct (Ascii.eqb "0" c2 && Ascii.eqb "0" c1 && Ascii.eqb "0" c0) eqn:E3;
      [|reflexivity].
    exfalso. apply E, Hz.
    apply andb_true_iff in E3 as [E3 E0]. apply andb_true_iff in E3 as [E2 E1].
    apply Ascii.eqb_eq in E2, E1, E0. now rewrite <- E2, <- E1, <- E0.
Qed.

Lemma noDot_with_dot (pre rest : string) : noDot (pre ++ String "." rest) = false.
Proof.
  rewrite noDot_app. simpl. apply andb_false_r.
Qed.

Lemma rendered_EndsWith_Z (t : Z) :
  EndsWith (replace (JSDate.isoString t) ".000Z" "Z") "Z".
Proof.
  rewrite replace_isoString. destruct (JSDate.msFromTime t =? 0).
  - now exists (JSDate.isoSeconds t).
  - exists (JSDate.isoSeconds t ++ "." ++ JSDate.pad 3 (JSDate.msFromTime t)).
    now rewrite !append_assoc.
Qed.

Lemma rendered_not_EndsWith_000Z (t : Z) :
  ~ EndsWith (replace (JSDate.isoString t) ".000Z" "Z") ".000Z".
Proof.
  rewrite replace_isoString. intros [pre H].
  assert (Hr : 0 <= JSDate.msFromTime t < 1000)
    by (unfold JSDate.msFromTime; apply Z.mod_pos_bound; lia).
  destruct (JSDate.msFromTime t =? 0) eqn:E.
  - assert (N : noDot (JSDate.isoSeconds t ++ "Z") = true)
      by now rewrite noDot_app, noDot_isoSeconds.
    rewrite H in N. change ".000Z" with (String "." "000Z") in N.
    now rewrite noDot_with_dot in N.
  - apply Z.eqb_neq in E. apply E, (pad3_zero _ Hr).
    change ("." ++ JSDate.pad 3 (JSDate.msFromTime t) ++ "Z")
      with (String "." (JSDate.pad 3 (JSDate.msFromTime t) ++ "Z")) in H.
    change ".000Z" with (String "." "000Z") in H.
    apply split_at_dot in H as [_ H].
    + simpl in H |- *. injection H as -> -> ->. reflexivity.
    + apply noDot_isoSeconds.
    + now rewrite noDot_app, noDot_pad.
Qed.

(** ** The calendar *)

Section Calendar.
Import JSDate.

Lemma isLeapYear_era (y era : Z) : isLeapYear (y + era * 400) = isLeapYear y.
Proof.
  unfold isLeapYear.
  assert (H4 : (y + era * 400) mod 4 = y mod 4) by (Z.div_mod_to_equations; lia).
  assert (H100 : (y + era * 400) mod 100 = y mod 100) by (Z.div_mod_to_equations; lia).
  assert (H400 : (y + era * 400) mod 400 = y mod 400) by (Z.div_mod_to_equations; lia).
  now rewrite H4, H100, H400.
Qed.

Lemma DaysInMonth_era (y era m : Z) : DaysInMonth (y + era * 400) m = DaysInMonth y m.
Proof. unfold DaysInMonth. now rewrite isLeapYear_era. Qed.

(** Within an era: the year of the era, the month and the day computed
    from the day of the era are in range. *)
Lemma era_fields (doe : Z) :
  0 <= doe < 146097 ->
  let yoe := (doe - doe / 1460 + doe / 36524 - doe / 146096) / 365 in
  let doy := doe - (365 * yoe + yoe / 4 - yoe / 100) in
  let mp := (5 * doy + 2) / 153 in
  let d := doy - (153 * mp + 2) / 5 + 1 in
  let m := if mp <? 10 then mp + 3 else mp - 9 in
  0 <= yoe <= 399 /\ 0 <= mp <= 11
  /\ 1 <= d <= DaysInMonth (if m <=? 2 then yoe + 1 else yoe) m.
Proof.
  intros H yoe doy mp d m.
  assert (Hy : 0 <= yoe <= 399) by (subst yoe; Z.div_mod_to_equations; lia).
  assert (Hd : 0 <= doy <= 365) by (subst doy yoe; Z.div_mod_to_equations; lia).
  assert (Hl : doy = 365 -> isLeapYear (yoe + 1) = true).
  { intros E. unfold isLeapYear.
    assert (L : (yoe + 1) mod 4 = 0
                /\ ((yoe + 1) mod 100 <> 0 \/ (yoe + 1) mod 400 = 0))
      by (subst doy yoe; Z.div_mod_to_equations; lia).
    destruct L as [-> [L | ->]]; simpl.
    - apply Z.eqb_neq in L. now rewrite L.
    - apply orb_true_r. }
  assert (Hm : 0 <= mp <= 11) by (subst mp; Z.div_mod_to_equations; lia).
  split; [exact Hy|]. split; [exact Hm|].
  assert (C : mp = 0 \/ mp = 1 \/ mp = 2 \/ mp = 3 \/ mp = 4 \/ mp = 5 \/ mp = 6
              \/ mp = 7 \/ mp = 8 \/ mp = 9 \/ mp = 10 \/ mp = 11) by lia.
  clearbody doy. clear H Hy.
  unfold DaysInMonth.
  repeat (destruct C as [C | C];
          [ subst m d; rewrite C in *; simpl; subst mp; Z.div_mod_to_equations; lia | ]).
  subst m d. rewrite C in *. simpl.
  destruct (isLeapYear (yoe + 1)) eqn:L.
  - subst mp; Z.div_mod_to_equations; lia.
  - assert (doy <> 365) by (intros E; apply Hl in E; congruence).
    subst mp; Z.div_mod_to_equations; lia.
Qed.

(** The date of a day number is a date of the calendar, and [MakeDay]
    takes it back to the day number. *)
Lemma civil_from_days_MakeDay (z : Z) :
  let '(y, m, d) := civil_from_days z in
  1 <= m <= 12 /\ 1 <= d <= DaysInMonth y m /\ MakeDay y m d = z
  /\ 400 * ((z + 719468) / 146097) <= y <= 400 * ((z + 719468) / 146097) + 400.
Proof.
  unfold civil_from_days.
  set (era := (z + 719468) / 146097).
  set (doe := z + 719468 - era * 146097).
  assert (Hdoe : 0 <= doe < 146097) by (subst doe era; Z.div_mod_to_equations; lia).
  destruct (era_fields doe Hdoe) as [Hy [Hm Hd]].
  set (yoe := (doe - doe / 1460 + doe / 36524 - doe / 146096) / 365) in *.
  set (doy := doe - (365 * yoe + yoe / 4 - yoe / 100)) in *.
  set (mp := (5 * doy + 2) / 153) in *.
  set (d := doy - (153 * mp + 2) / 5 + 1) in *.
  set (m := if mp <? 10 then mp + 3 else mp - 9) in *.
  assert (Hm' : 1 <= m <= 12) by (subst m; destruct (Z.ltb_spec mp 10); lia).
  assert (Hmp : (if 2 <? m then m - 3 else m + 9) = mp).
  { subst m. destruct (Z.ltb_spec mp 10).
    - destruct (Z.ltb_spec 2 (mp + 3)); lia.
    - destruct (Z.ltb_spec 2 (mp - 9)); lia. }
  split; [exact Hm'|]. split; [|split].
  - destruct (m <=? 2).
    + replace (yoe + era * 400 + 1) with (yoe + 1 + era * 400) by lia.
      now rewrite DaysInMonth_era.
    + now rewrite DaysInMonth_era.
  - unfold MakeDay. rewrite Hmp.
    assert (Hy' : (if m <=? 2
                   then (if m <=? 2 then yoe + era * 400 + 1 else yoe + era * 400) - 1
                   else (if m <=? 2 then yoe + era * 400 + 1 else yoe + era * 400))
                  = yoe + era * 400) by (destruct (m <=? 2); lia).
    rewrite Hy'.
    assert (He : (yoe + era * 400) / 400 = era) by (Z.div_mod_to_equations; lia).
    rewrite He.
    replace (yoe + era * 400 - era * 400) with yoe by lia.
    subst d doy doe. lia.
  - destruct (m <=? 2); lia.
Qed.

(** The time within the day splits into hours, minutes, seconds and
    milliseconds. *)
Lemma time_fields (t : Z) :
  let w := TimeWithinDay t in
  0 <= w / 3600000 <= 23 /\ 0 <= w / 60000 mod 60 <= 59 /\ 0 <= w / 1000 mod 60 <= 59
  /\ 0 <= msFromTime t <= 999
  /\ MakeTime (w / 3600000) (w / 60000 mod 60) (w / 1000 mod 60) (msFromTime t) = w
  /\ MakeDate (Day t) w = t.
Proof.
  unfold TimeWithinDay, msFromTime, MakeTime, MakeDate, Day, msPerDay.
  Z.div_mod_to_equations. lia.
Qed.
End Calendar.

(** ** Parsing what was printed *)

Section RoundTrip.
Import JSDate.

Lemma digitVal_digitChar (d : Z) : 0 <= d <= 9 -> digitVal (digitChar d) = Some d.
Proof.
  intros H.
  assert (C : d = 0 \/ d = 1 \/ d = 2 \/ d = 3 \/ d = 4 \/ d = 5 \/ d = 6 \/ d = 7
              \/ d = 8 \/ d = 9) by lia.
  repeat (destruct C as [-> | C]; [reflexivity|]). now rewrite C.
Qed.

Lemma readDigits_pad (w : nat) (acc n : Z) (rest : string) :
  readDigits w acc (pad w n ++ rest)
  = Some (acc * 10 ^ Z.of_nat w + n mod 10 ^ Z.of_nat w, rest).
Proof.
  revert acc. induction w as [|w IH]; intros acc.
  - simpl. rewrite Z.mod_1_r. do 2 f_equal. lia.
  - change (pad (S w) n ++ rest)
      with (String (digitChar ((n / 10 ^ Z.of_nat w) mod 10)) (pad w n ++ rest)).
    cbn [readDigits].
    rewrite digitVal_digitChar
      by (pose proof (Z.mod_pos_bound (n / 10 ^ Z.of_nat w) 10); lia).
    rewrite IH. do 2 f_equal.
    rewrite Nat2Z.inj_succ, Z.pow_succ_r by lia.
    assert (P : 0 < 10 ^ Z.of_nat w) by (apply Z.pow_pos_nonneg; lia).
    rewrite (Z.mul_comm 10 (10 ^ Z.of_nat w)).
    rewrite (Z.rem_mul_r n (10 ^ Z.of_nat w) 10) by lia.
    ring.
Qed.

Lemma readDigits_pad_small (w : nat) (n : Z) (rest : string) :
  0 <= n < 10 ^ Z.of_nat w ->
  readDigits w 0 (pad w n ++ rest) = Some (n, rest).
Proof.
  intros H. rewrite readDigits_pad, Z.mod_small by exact H. reflexivity.
Qed.

Lemma expect_app (c : ascii) (s : string) : expect c (String c "" ++ s) = Some s.
Proof. simpl. now rewrite Ascii.eqb_refl. Qed.

Lemma parseYear_digit (d : Z) (s : string) :
  0 <= d <= 9 ->
  parseYear (String (digitChar d) s) = readDigits 4 0 (String (digitChar d) s).
Proof.
  intros H.
  assert (C : d = 0 \/ d = 1 \/ d = 2 \/ d = 3 \/ d = 4 \/ d = 5 \/ d = 6 \/ d = 7
              \/ d = 8 \/ d = 9) by lia.
  repeat (destruct C as [-> | C]; [reflexivity|]). now rewrite C.
Qed.

Lemma parseYear_yearString (y : Z) (rest : string) :
  -999999 <= y <= 999999 ->
  parseYear (yearString y ++ rest) = Some (y, rest).
Proof.
  intros H. unfold yearString.
  destruct (Z.leb_spec 0 y) as [H0|H0]; cbn [andb].
  - destruct (Z.leb_spec y 9999) as [H1|H1].
    + change (pad 4 y ++ rest)
        with (String (digitChar ((y / 10 ^ Z.of_nat 3) mod 10)) (pad 3 y ++ rest)).
      rewrite parseYear_digit
        by (pose proof (Z.mod_pos_bound (y / 10 ^ Z.of_nat 3) 10); lia).
      change (String (digitChar ((y / 10 ^ Z.of_nat 3) mod 10)) (pad 3 y ++ rest))
        with (pad 4 y ++ rest).
      apply readDigits_pad_small. simpl. lia.
    + destruct (Z.ltb_spec y 0) as [H2|H2]; [lia|].
      change (parseYear (("+" ++ pad 6 (Z.abs y)) ++ rest))
        with (readDigits 6 0 (pad 6 (Z.abs y) ++ rest)).
      rewrite readDigits_pad_small by (simpl; lia).
      f_equal. f_equal. lia.
  - destruct (Z.ltb_spec y 0) as [H2|H2]; [|lia].
    change (parseYear (("-" ++ pad 6 (Z.abs y)) ++ rest))
      with (bind (readDigits 6 0 (pad 6 (Z.abs y) ++ rest))
                 (fun x => let '(y0, r) := x in
                           if y0 =? 0 then None else Some (- y0, r))).
    rewrite readDigits_pad_small by (simpl; lia).
    cbn [bind]. destruct (Z.eqb_spec (Z.abs y) 0); [lia|].
    f_equal. f_equal. lia.
Qed.

Lemma parseFraction_ms (ms : Z) :
  0 <= ms <= 999 -> parseFraction ("." ++ pad 3 ms ++ "Z") = Some ms.
Proof.
  intros H.
  change (parseFraction ("." ++ pad 3 ms ++ "Z"))
    with (bind (readDigits 3 0 (pad 3 ms ++ "Z"))
               (fun x => let '(ms0, rest) := x in
                         match rest with
                         | "Z" => Some ms0
                         | _ => None
                         end)).
  rewrite readDigits_pad_small by (simpl; lia). reflexivity.
Qed.

(** A printed time, followed by a fraction that parses, parses to the
    time it was printed from. *)
Lemma parseTime_printed (h mi sec ms : Z) (tail : string) :
  0 <= h <= 23 -> 0 <= mi <= 59 -> 0 <= sec <= 59 ->
  parseFraction tail = Some ms ->
  parseTime (pad 2 h ++ ":" ++ pad 2 mi ++ ":" ++ pad 2 sec ++ tail)
  = Some (MakeTime h mi sec ms).
Proof.
  intros Hh Hmi Hs Hf. unfold parseTime.
  rewrite readDigits_pad_small by (simpl; lia). cbn [bind].
  rewrite expect_app. cbn [bind].
  rewrite readDigits_pad_small by (simpl; lia). cbn [bind].
  rewrite expect_app. cbn [bind].
  rewrite readDigits_pad_small by (simpl; lia). cbn [bind].
  rewrite Hf. cbn [bind].
  destruct (Z.leb_spec mi 59); [|lia].
  destruct (Z.leb_spec sec 59); [|lia].
  destruct (Z.leb_spec h 23); [|lia].
  reflexivity.
Qed.

(** A printed date and time parses to the time value of its fields. *)
Lemma parseISO_printed (y m d h mi sec ms : Z) (tail : string) :
  -999999 <= y <= 999999 -> 1 <= m <= 12 -> 1 <= d <= DaysInMonth y m ->
  0 <= h <= 23 -> 0 <= mi <= 59 -> 0 <= sec <= 59 ->
  parseFraction tail = Some ms ->
  parseISO (yearString y ++ "-" ++ pad 2 m ++ "-" ++ pad 2 d ++ "T"
              ++ pad 2 h ++ ":" ++ pad 2 mi ++ ":" ++ pad 2 sec ++ tail)
  = TimeClip (MakeDate (MakeDay y m d) (MakeTime h mi sec ms)).
Proof.
  intros Hy Hm Hd Hh Hmi Hs Hf. unfold parseISO.
  rewrite parseYear_yearString by exact Hy. cbn [bind].
  rewrite expect_app. cbn [bind].
  rewrite readDigits_pad_small by (simpl; lia). cbn [bind].
  rewrite expect_app. cbn [bind].
  assert (Hd31 : DaysInMonth y m <= 31).
  { unfold DaysInMonth.
    destruct (m =? 2); [destruct (isLeapYear y); lia|].
    destruct ((m =? 4) || (m =? 6) || (m =? 9) || (m =? 11)); lia. }
  rewrite readDigits_pad_small by (simpl; lia). cbn [bind].
  destruct (Z.leb_spec 1 m); [|lia].
  destruct (Z.leb_spec m 12); [|lia].
  destruct (Z.leb_spec 1 d); [|lia].
  destruct (Z.leb_spec d (DaysInMonth y m)); [|lia].
  cbn [andb].
  change ("T" ++ pad 2 h ++ ":" ++ pad 2 mi ++ ":" ++ pad 2 sec ++ tail)
    with (String "T" (pad 2 h ++ ":" ++ pad 2 mi ++ ":" ++ pad 2 sec ++ tail)).
  cbv iota.
  rewrite (parseTime_printed h mi sec ms tail Hh Hmi Hs Hf). reflexivity.
Qed.
End RoundTrip.

Section RoundTripTime.
Import JSDate.

Lemma parseISO_seconds_tail (t : Z) (tail : string) :
  Z.abs t <= 8640000000000000 ->
  parseFraction tail = Some (msFromTime t) ->
  parseISO (isoSeconds t ++ tail) = Some t.
Proof.
  intros Ht Hf. unfold isoSeconds.
  pose proof (civil_from_days_MakeDay (Day t)) as Hc.
  destruct (civil_from_days (Day t)) as [[y m] d].
  destruct Hc as [Hm [Hd [Hday Hy]]].
  destruct (time_fields t) as [Hh [Hmi [Hs [Hms [Hw Ht']]]]].
  rewrite !append_assoc.
  rewrite (parseISO_printed y m d _ _ _ (msFromTime t) tail); auto.
  - rewrite Hday, Hw, Ht'. unfold TimeClip.
    destruct (Z.leb_spec (Z.abs t) 8640000000000000); [reflexivity | lia].
  - unfold Day, msPerDay in Hy. revert Hy. Z.div_mod_to_equations. lia.
Qed.

(** [Date.parse] reads the string of [toISOString] back to the time
    value it was printed from. *)
Lemma parseISO_isoString (t : Z) :
  Z.abs t <= 8640000000000000 -> parseISO (isoString t) = Some t.
Proof.
  intros Ht. unfold isoString. apply parseISO_seconds_tail; [exact Ht|].
  apply parseFraction_ms. unfold msFromTime.
  pose proof (Z.mod_pos_bound t 1000). lia.
Qed.

(** So does it read the string of the release-date cell. *)
Lemma parseISO_rendered (t : Z) :
  Z.abs t <= 8640000000000000 ->
  parseISO (replace (isoString t) ".000Z" "Z") = Some t.
Proof.
  intros Ht. rewrite replace_isoString.
  apply parseISO_seconds_tail; [exact Ht|].
  destruct (Z.eqb_spec (msFromTime t) 0) as [E|E].
  - now rewrite E.
  - apply parseFraction_ms. unfold msFromTime.
    pose proof (Z.mod_pos_bound t 1000). lia.
Qed.
End RoundTripTime.

Lemma releaseDateCell_valid (host : Host) (r : FirmwareRecord) (t : Z) :
  getTime host (released_at r) = Some t ->
  releaseDateCell host r = Normal (replace (JSDate.isoString t) ".000Z" "Z").
Proof. unfold releaseDateCell. now intros ->. Qed.

Lemma releaseDateCell_invalid (host : Host) (r : FirmwareRecord) :
  getTime host (released_at r) = None ->
  releaseDateCell host r = Throw JSDate.RangeError_invalid_time.
Proof. unfold releaseDateCell. now intros ->. Qed.

(** C6, as amended.  For a record whose [released_at] parses to the time
    value [t], the release-date cell shows the ISO string of [t] to the
    second followed by "Z" when [t] is a whole second, and the full ISO
    string with its milliseconds otherwise; the string ends with "Z", does
    not end with ".000Z", and for a time value in the range of Date it
    reads back as [t].  For a record whose [released_at] does not parse,
    [toISOString] throws a RangeError and the cell shows no string. *)
Theorem C6_release_date_cell (host : Host) (r : FirmwareRecord) (t : Z) :
  getTime host (released_at r) = Some t ->
  (exists s,
      releaseDateCell host r = Normal s
      /\ s = JSDate.isoSeconds t
             ++ (if JSDate.msFromTime t =? 0 then "Z"
                 else "." ++ JSDate.pad 3 (JSDate.msFromTime t) ++ "Z")
      /\ EndsWith s "Z"
      /\ ~ EndsWith s ".000Z"
      /\ (Z.abs t <= 8640000000000000 -> JSDate.parseISO s = Some t))
  /\ (forall r', getTime host (released_at r') = None ->
                 releaseDateCell host r' = Throw JSDate.RangeError_invalid_time).
Proof.
  intros H. split; [|apply releaseDateCell_invalid].
  exists (replace (JSDate.isoString t) ".000Z" "Z").
  split; [now apply releaseDateCell_valid|].
  split; [apply replace_isoString|].
  split; [apply rendered_EndsWith_Z|].
  split; [apply rendered_not_EndsWith_000Z | apply parseISO_rendered].
Qed.

Lemma C6_release_date_cell_witness :
  getTime isoHost (released_at sensorRecord) = Some 1755681300000
  /\ exists s, releaseDateCell isoHost sensorRecord = Normal s
               /\ s = "2025-08-20T09:15:00Z".
Proof.
  split; [reflexivity|].
  destruct (C6_release_date_cell isoHost sensorRecord 1755681300000 eq_refl)
    as [[s [Hs [E _]]] _].
  exists s. split; [exact Hs|]. rewrite E. reflexivity.
Defined.

(** C6 as stated fails on a record without a parseable [released_at]: the
    cell has no string, [toISOString] throws. *)
Lemma C6_every_record_counterexample :
  releaseDateCell isoHost undatedRecord = Throw (mkExn "RangeError" "Invalid time value")
  /\ ~ (exists s, releaseDateCell isoHost undatedRecord = Normal s).
Proof.
  split; [reflexivity|]. intros [s H]. discriminate H.
Qed.

(** ** The scenarios of the sample data *)

(** With show-beta off only the approved build of the sensor is shown;
    with show-beta on, by release date, the beta build comes first. *)
Example scenario_show_beta :
  map version (filtered isoHost (firstn 2 INLINE_DATA) "" false key_product_name)
  = ["1.4.2"]
  /\ map version (filtered isoHost (firstn 2 INLINE_DATA) "" true key_released_at)
     = ["1.5.0-beta.2"; "1.4.2"].
Proof. split; vm_compute; reflexivity. Qed.

(** The query "bl652", in any case and with blanks around it, finds the
    gateway record alone, whatever the show-beta setting. *)
Example scenario_query_bl652 :
  map product_name (filtered isoHost INLINE_DATA "bl652" false key_product_name)
  = ["Silvair BLE Mesh Gateway"]
  /\ map product_name (filtered isoHost INLINE_DATA "BL652" true key_version)
     = ["Silvair BLE Mesh Gateway"]
  /\ map product_name (filtered isoHost INLINE_DATA "  Bl652 " true key_released_at)
     = ["Silvair BLE Mesh Gateway"].
Proof. repeat split; vm_compute; reflexivity. Qed.

(** In embedded mode the effect does nothing, and a successful fetch
    replaces the list and clears the error. *)
Example scenario_fetch :
  fetchEffect inline (Throw (mkExn "TypeError" "Failed to fetch")) (initialState inline)
  = initialState inline
  /\ fetchEffect remote (Normal (mkResponse 200 (Normal preEpochSample)))
                 (initialState remote)
     = mkState preEpochSample false None "" false key_product_name
  /\ error (fetchEffect remote (Throw (mkExn "TypeError" "Failed to fetch"))
                        (initialState remote))
     = Some "TypeError: Failed to fetch".
Proof. repeat split; reflexivity. Qed.

(** ** Filtering a view again, exactly *)

Lemma filter_all {A : Type} (f : A -> bool) (l : list A) :
  (forall x, In x l -> f x = true) -> filter f l = l.
Proof.
  intros H. induction l as [|x l IH]; simpl; [reflexivity|].
  rewrite (H x (or_introl eq_refl)), IH; [reflexivity|].
  intros y Hy. apply H. now right.
Qed.

(** The view passes both filters whole. *)
Lemma filterStep_filtered (host : Host) (L : list FirmwareRecord) (q : string)
      (showBeta : bool) (sortKey : SortKey) :
  filterStep (filtered host L q showBeta sortKey) q showBeta
  = filtered host L q showBeta sortKey.
Proof.
  assert (H : forall r, In r (filtered host L q showBeta sortKey) ->
                        channelPass showBeta r = true
                        /\ textPass (needle_of q) r = true).
  { intros r Hr. apply sort_In in Hr. unfold filterStep in Hr.
    apply filter_In in Hr as [Hr Ht]. apply filter_In in Hr as [_ Hc]. now split. }
  unfold filterStep at 1.
  rewrite (filter_all (channelPass showBeta)) by (intros r Hr; now apply H).
  apply filter_all. intros r Hr. now apply H.
Qed.

(** When the host's [localeCompare] is a total preorder, the view by
    product name or product code is a fixed point of the pipeline. *)
Lemma filtered_again_string_key (host : Host) (L : list FirmwareRecord) (q : string)
      (showBeta : bool) (sortKey : SortKey) :
  total_preorder (localeCompare host) ->
  sortKey = key_product_name \/ sortKey = key_product_code ->
  filtered host (filtered host L q showBeta sortKey) q showBeta sortKey
  = filtered host L q showBeta sortKey.
Proof.
  intros Hp Hk. unfold filtered at 1. rewrite filterStep_filtered.
  apply sort_sorted_id.
  assert (E : forall a b, SortCompare (compareFn host sortKey) a b
                          = localeCompare host (field sortKey a) (field sortKey b))
    by (intros a b; destruct Hk as [-> | ->]; reflexivity).
  assert (Hs : StronglySorted
                 (fun a b => localeCompare host (field sortKey a) (field sortKey b) <= 0)
                 (filtered host L q showBeta sortKey)).
  { apply sorted_by_string_key; [exact Hp|].
    intros a b. destruct Hk as [-> | ->]; reflexivity. }
  revert Hs. apply StronglySorted_weaken. intros a b _ _. now rewrite E.
Qed.


(** * Further properties of the component *)

(** ** The fetch effect and the status line *)

(** X1.  A fetch that succeeds with payload [v] replaces the record list
    by [v], clears the error message, also one left by an earlier
    failure, clears the loading flag, and leaves the three controls as
    they were. *)
Theorem X1_fetch_success (r : Response) (v : list FirmwareRecord) (s : State) :
  ok r = true -> json r = Normal v ->
  records (fetchEffect remote (Normal r) s) = v
  /\ error (fetchEffect remote (Normal r) s) = None
  /\ loading (fetchEffect remote (Normal r) s) = false
  /\ q (fetchEffect remote (Normal r) s) = q s
  /\ showBeta (fetchEffect remote (Normal r) s) = showBeta s
  /\ sortKey (fetchEffect remote (Normal r) s) = sortKey s.
Proof.
  intros Hok Hj. rewrite (fetchEffect_success r v s Hok Hj). simpl.
  repeat split.
Qed.

Lemma X1_fetch_success_witness :
  let failed := fetchEffect remote (Normal (mkResponse 503 (Normal []))) (initialState remote) in
  let r := mkResponse 200 (Normal preEpochSample) in
  error failed = Some "Error: HTTP 503"
  /\ records (fetchEffect remote (Normal r) failed) = preEpochSample
  /\ error (fetchEffect remote (Normal r) failed) = None.
Proof.
  intros failed r. split; [reflexivity|].
  destruct (X1_fetch_success r preEpochSample failed eq_refl eq_refl) as [H1 [H2 _]].
  split; assumption.
Defined.

(** The state after the effect, by the failure reason of the fetch. *)
Lemma fetchEffect_cases (fetched : Completion Response) (s : State) :
  (exists e, failureReason fetched = Some e
             /\ fetchEffect remote fetched s
                = mkState (records s) false (Some (String_of_error e))
                          (q s) (showBeta s) (sortKey s))
  \/ (exists r v, fetched = Normal r /\ ok r = true /\ json r = Normal v
                  /\ failureReason fetched = None
                  /\ fetchEffect remote fetched s
                     = mkState v false None (q s) (showBeta s) (sortKey s)).
Proof.
  destruct (failureReason fetched) as [e|] eqn:E.
  - left. exists e. split; [reflexivity | now apply fetchEffect_failure].
  - right. unfold failureReason in E. destruct fetched as [r|e0]; [|discriminate].
    destruct (ok r) eqn:Eok; [|discriminate].
    destruct (json r) as [v|e1] eqn:Ej; [|discriminate].
    exists r, v.
    split; [reflexivity|]. split; [exact Eok|]. split; [exact Ej|].
    split; [reflexivity | now apply fetchEffect_success].
Qed.

(** X2.  Once the fetch has settled the status line never reads
    "Refreshing": after a success it is the last-updated date of the
    payload; after a failure whose reason stringifies to a non-empty text
    it is "Error: " and that text; and the error message is null exactly
    when the fetch succeeded. *)
Theorem X2_status_line_after_fetch (host : Host) (fetched : Completion Response)
        (s : State) :
  statusLine host (fetchEffect remote fetched s) <> Refreshing
  /\ (forall r v, fetched = Normal r -> ok r = true -> json r = Normal v ->
        statusLine host (fetchEffect remote fetched s)
        = LastUpdatedLine (lastUpdated host v))
  /\ (forall e, failureReason fetched = Some e -> String_of_error e <> "" ->
        statusLine host (fetchEffect remote fetched s)
        = ErrorLine ("Error: " ++ String_of_error e))
  /\ (error (fetchEffect remote fetched s) = None <-> failureReason fetched = None).
Proof.
  split; [|split; [|split]].
  - unfold statusLine. rewrite fetchEffect_loading.
    destruct (error (fetchEffect remote fetched s)) as [e|]; [|discriminate].
    destruct (String.eqb e ""); discriminate.
  - intros r v -> Hok Hj. now rewrite (fetchEffect_success r v s Hok Hj).
  - intros e He Hne. rewrite (fetchEffect_failure fetched s e He).
    unfold statusLine. simpl. apply String.eqb_neq in Hne. now rewrite Hne.
  - destruct (fetchEffect_cases fetched s) as [[e [He ->]] | [r [v [_ [_ [_ [Hn ->]]]]]]];
      simpl; rewrite ?He, ?Hn; split; congruence.
Qed.

(** X3.  No outcome of the fetch touches the query, the show-beta flag
    or the sort key, and in embedded mode the effect leaves the whole
    state alone; so after a failed fetch the filtered view and the
    last-updated date are what they were before it. *)
Theorem X3_fetch_keeps_controls (DATA_MODE : DataMode) (fetched : Completion Response)
        (s : State) :
  q (fetchEffect DATA_MODE fetched s) = q s
  /\ showBeta (fetchEffect DATA_MODE fetched s) = showBeta s
  /\ sortKey (fetchEffect DATA_MODE fetched s) = sortKey s
  /\ fetchEffect inline fetched s = s
  /\ (forall host e, failureReason fetched = Some e ->
        view host (fetchEffect remote fetched s) = view host s
        /\ lastUpdated host (records (fetchEffect remote fetched s))
           = lastUpdated host (records s)).
Proof.
  assert (K : q (fetchEffect DATA_MODE fetched s) = q s
              /\ showBeta (fetchEffect DATA_MODE fetched s) = showBeta s
              /\ sortKey (fetchEffect DATA_MODE fetched s) = sortKey s).
  { destruct DATA_MODE; [now repeat split|].
    destruct (fetchEffect_cases fetched s) as [[e [_ ->]] | [r [v [_ [_ [_ [_ ->]]]]]]];
      now repeat split. }
  destruct K as [K1 [K2 K3]].
  repeat split; auto;
    rewrite (fetchEffect_failure fetched s e H); reflexivity.
Qed.

(** ** The search box and the check box *)

Lemma isWhiteSpace_lowerChar (c : ascii) : isWhiteSpace (lowerChar c) = isWhiteSpace c.
Proof.
  destruct c as [[] [] [] [] [] [] [] []]; reflexivity.
Qed.

Lemma lowerChar_idem (c : ascii) : lowerChar (lowerChar c) = lowerChar c.
Proof.
  destruct c as [[] [] [] [] [] [] [] []]; reflexivity.
Qed.

Lemma toLowerCase_idem (s : string) : toLowerCase (toLowerCase s) = toLowerCase s.
Proof.
  induction s as [|c s IH]; simpl; [reflexivity|].
  now rewrite lowerChar_idem, IH.
Qed.

Lemma toLowerCase_trimStart (s : string) :
  trimStart (toLowerCase s) = toLowerCase (trimStart s).
Proof.
  induction s as [|c s IH]; simpl; [reflexivity|].
  rewrite isWhiteSpace_lowerChar. now destruct (isWhiteSpace c).
Qed.

Lemma toLowerCase_trimEnd (s : string) :
  trimEnd (toLowerCase s) = toLowerCase (trimEnd s).
Proof.
  induction s as [|c s IH]; simpl; [reflexivity|].
  rewrite IH, isWhiteSpace_lowerChar.
  destruct (trimEnd s); simpl; [now destruct (isWhiteSpace c) | reflexivity].
Qed.

(** Trimming and lower-casing commute. *)
Lemma toLowerCase_trim (s : string) : trim (toLowerCase s) = toLowerCase (trim s).
Proof.
  unfold trim. now rewrite toLowerCase_trimStart, toLowerCase_trimEnd.
Qed.

Lemma trimStart_app_ws (a s : string) :
  allWhiteSpace a = true -> trimStart (a ++ s) = trimStart s.
Proof.
  induction a as [|c a IH]; simpl; [reflexivity|].
  intros H. apply andb_true_iff in H as [Hc Ha]. rewrite Hc. now apply IH.
Qed.

Lemma trimEnd_ws (b : string) : allWhiteSpace b = true -> trimEnd b = "".
Proof.
  induction b as [|c b IH]; simpl; [reflexivity|].
  intros H. apply andb_true_iff in H as [Hc Hb]. now rewrite (IH Hb), Hc.
Qed.

Lemma trimEnd_app_ws (s b : string) :
  allWhiteSpace b = true -> trimEnd (s ++ b) = trimEnd s.
Proof.
  intros Hb. induction s as [|c s IH]; simpl; [now apply trimEnd_ws|].
  now rewrite IH.
Qed.

(** White space around a string does not survive [trim]. *)
Lemma trim_app_ws (a s b : string) :
  allWhiteSpace a = true -> allWhiteSpace b = true -> trim (a ++ s ++ b) = trim s.
Proof.
  intros Ha Hb. unfold trim. rewrite (trimStart_app_ws a _ Ha).
  induction s as [|c s IH]; simpl.
  - clear Ha. induction b as [|c b IHb]; simpl; [reflexivity|].
    simpl in Hb. apply andb_true_iff in Hb as [Hc Hb]. rewrite Hc. now apply IHb.
  - destruct (isWhiteSpace c); [exact IH|].
    change (String c (s ++ b)) with (String c s ++ b).
    now apply trimEnd_app_ws.
Qed.

Lemma includes_Contains (s p : string) : includes s p = true <-> Contains s p.
Proof. apply includes_spec. Qed.

Lemma Contains_trans (s b a : string) : Contains s b -> Contains b a -> Contains s a.
Proof.
  intros [p1 [q1 ->]] [p2 [q2 ->]].
  exists (p1 ++ p2), (q2 ++ q1). now rewrite !append_assoc.
Qed.

Lemma filter_Sublist_imp {A : Type} (f g : A -> bool) (l : list A) :
  (forall x, f x = true -> g x = true) -> Sublist (filter f l) (filter g l).
Proof.
  intros H. induction l as [|x l IH]; simpl; [constructor|].
  destruct (f x) eqn:Ef.
  - rewrite (H x Ef). now constructor.
  - destruct (g x); [now constructor | exact IH].
Qed.

Lemma Sublist_filter {A : Type} (f : A -> bool) (l1 l2 : list A) :
  Sublist l1 l2 -> Sublist (filter f l1) (filter f l2).
Proof.
  induction 1; simpl; [constructor | |].
  - destruct (f x); [now constructor | assumption].
  - destruct (f x); [now constructor | assumption].
Qed.

Lemma filtered_In_iff (host : Host) (L : list FirmwareRecord) (q : string)
      (showBeta : bool) (sortKey : SortKey) (r : FirmwareRecord) :
  In r (filtered host L q showBeta sortKey)
  <-> In r L
      /\ (showBeta = true \/ channel r <> "beta")
      /\ (Contains (toLowerCase (product_name r)) (toLowerCase (trim q))
          \/ Contains (toLowerCase (product_code r)) (toLowerCase (trim q))
          \/ Contains (toLowerCase (hardware_rev_or_empty r)) (toLowerCase (trim q))).
Proof.
  unfold filtered. rewrite sort_In. unfold filterStep.
  rewrite !filter_In. unfold textPass, needle_of.
  rewrite !orb_true_iff, !includes_Contains.
  assert (C : channelPass showBeta r = true <-> showBeta = true \/ channel r <> "beta").
  { destruct showBeta.
    - split; [now left | reflexivity].
    - rewrite channelPass_false. split; [auto | intros [H | H]; [discriminate | exact H]]. }
  rewrite C. tauto.
Qed.

(** X4.  A record is in the filtered view exactly when it is in the
    list, show-beta is on or its channel is not "beta", and the trimmed,
    lower-cased query occurs in its lower-cased product name, product code
    or hardware revision (an absent revision counting as empty). *)
Theorem X4_view_membership (host : Host) (L : list FirmwareRecord) (q : string)
        (showBeta : bool) (sortKey : SortKey) (r : FirmwareRecord) :
  In r (filtered host L q showBeta sortKey)
  <-> In r L
      /\ (showBeta = true \/ channel r <> "beta")
      /\ (Contains (toLowerCase (product_name r)) (toLowerCase (trim q))
          \/ Contains (toLowerCase (product_code r)) (toLowerCase (trim q))
          \/ Contains (toLowerCase (hardware_rev_or_empty r)) (toLowerCase (trim q))).
Proof. apply filtered_In_iff. Qed.

(** X5.  The search ignores case and the white space around the query:
    two queries with the same lower-casing give the same view, also when
    one of them is wrapped in white space. *)
Theorem X5_query_normalised (host : Host) (L : list FirmwareRecord) (q1 q2 a b : string)
        (showBeta : bool) (sortKey : SortKey) :
  allWhiteSpace a = true -> allWhiteSpace b = true ->
  toLowerCase q1 = toLowerCase q2 ->
  filtered host L (a ++ q1 ++ b) showBeta sortKey = filtered host L q2 showBeta sortKey.
Proof.
  intros Ha Hb Hq.
  assert (E : needle_of (a ++ q1 ++ b) = needle_of q2).
  { unfold needle_of. rewrite (trim_app_ws a q1 b Ha Hb).
    now rewrite <- !toLowerCase_trim, Hq. }
  unfold filtered, filterStep. now rewrite E.
Qed.

Lemma X5_query_normalised_witness :
  filtered isoHost INLINE_DATA ("  " ++ "Bl652-gw" ++ " ") true key_version
  = filtered isoHost INLINE_DATA "bL652-GW" true key_version.
Proof.
  exact (X5_query_normalised isoHost INLINE_DATA "Bl652-gw" "bL652-GW" "  " " "
                             true key_version eq_refl eq_refl eq_refl).
Defined.

(** X6.  Narrowing the query never adds a record: when the needle of
    [q1] occurs in the needle of [q2], the records that pass the filters
    for [q2] are a sub-list of those that pass for [q1], and every record
    of the view for [q2] is in the view for [q1]. *)
Theorem X6_longer_query_narrows (host : Host) (L : list FirmwareRecord) (q1 q2 : string)
        (showBeta : bool) (sortKey : SortKey) :
  includes (needle_of q2) (needle_of q1) = true ->
  Sublist (filterStep L q2 showBeta) (filterStep L q1 showBeta)
  /\ (forall r, In r (filtered host L q2 showBeta sortKey) ->
                In r (filtered host L q1 showBeta sortKey)).
Proof.
  intros H. apply includes_Contains in H.
  assert (S : Sublist (filterStep L q2 showBeta) (filterStep L q1 showBeta)).
  { unfold filterStep. apply filter_Sublist_imp. intros r. unfold textPass.
    rewrite !orb_true_iff, !includes_Contains.
    intros [[H1 | H1] | H1]; [left; left | left; right | right];
      eapply Contains_trans; eauto. }
  split; [exact S|]. intros r Hr.
  apply sort_In. apply sort_In in Hr. eapply Sublist_In; eauto.
Qed.

Lemma X6_longer_query_narrows_witness :
  includes (needle_of "PW-sen") (needle_of " sen") = true
  /\ Sublist (filterStep INLINE_DATA "PW-sen" true) (filterStep INLINE_DATA " sen" true).
Proof.
  split; [reflexivity|].
  destruct (X6_longer_query_narrows isoHost INLINE_DATA " sen" "PW-sen" true
                                    key_product_name eq_refl) as [H _].
  exact H.
Defined.

(** X7.  Switching show-beta on only adds records, and only beta ones:
    what passes the filters with the flag off is a sub-list of what passes
    with it on, and a record shown only with the flag on has channel
    "beta". *)
Theorem X7_show_beta_adds_beta (host : Host) (L : list FirmwareRecord) (q : string)
        (sortKey : SortKey) :
  Sublist (filterStep L q false) (filterStep L q true)
  /\ (forall r, In r (filtered host L q false sortKey) ->
                In r (filtered host L q true sortKey))
  /\ (forall r, In r (filtered host L q true sortKey) ->
                ~ In r (filtered host L q false sortKey) -> channel r = "beta").
Proof.
  assert (S : Sublist (filterStep L q false) (filterStep L q true)).
  { unfold filterStep. apply Sublist_filter. now apply filter_Sublist_imp. }
  split; [exact S|]. split.
  - intros r Hr. apply sort_In. apply sort_In in Hr. eapply Sublist_In; eauto.
  - intros r Hr Hn. rewrite filtered_In_iff in *.
    destruct (string_dec (channel r) "beta") as [E|E]; [exact E|].
    exfalso. apply Hn. destruct Hr as [H1 [_ H3]]. repeat split; auto.
Qed.

(** ** The sort selector *)

(** X8.  The sort key only reorders: the views under two sort keys are
    permutations of each other, so the selector never changes which
    records are shown or how many. *)
Theorem X8_sort_key_only_reorders (host : Host) (s : State) (k : SortKey) :
  Permutation (view host (setSortKey k s)) (view host s)
  /\ List.length (view host (setSortKey k s)) = List.length (view host s)
  /\ (forall r, In r (view host (setSortKey k s)) <-> In r (view host s)).
Proof.
  assert (P : Permutation (view host (setSortKey k s)) (view host s)).
  { unfold view. simpl.
    eapply perm_trans; [apply filtered_Permutation|].
    apply Permutation_sym, filtered_Permutation. }
  split; [exact P|]. split; [now apply Permutation_length|].
  intros r. split; apply Permutation_in; [exact P | now apply Permutation_sym].
Qed.

Lemma sorted_by_version (host : Host) (l : list FirmwareRecord) :
  total_preorder (localeCompareNumericBase host) ->
  StronglySorted (fun a b => localeCompareNumericBase host (version b) (version a) <= 0)
                 (sort (compareFn host key_version) l).
Proof.
  intros [Htot Htr].
  assert (E : forall a b, SortCompare (compareFn host key_version) a b
                          = localeCompareNumericBase host (version b) (version a))
    by reflexivity.
  assert (Hs : StronglySorted
                 (fun x y => SortCompare (compareFn host key_version) x y <= 0)
                 (sort (compareFn host key_version) l)).
  { apply (sort_sorted _ (fun _ => True)).
    - intros x y _ _. rewrite !E. apply Htot.
    - intros x y z _ _ _. rewrite !E. intros H1 H2. eapply Htr; eauto.
    - apply Forall_forall. auto. }
  revert Hs. apply StronglySorted_weaken. intros a b _ _. now rewrite E.
Qed.

(** X9.  When the host's numeric, base-sensitivity [localeCompare] orders
    the strings as a total preorder, the view sorted by version is
    descending: under that comparison no record's version sorts before
    the version of a record shown after it. *)
Theorem X9_version_descending (host : Host) (L : list FirmwareRecord) (q : string)
        (showBeta : bool) :
  total_preorder (localeCompareNumericBase host) ->
  StronglySorted (fun a b => localeCompareNumericBase host (version b) (version a) <= 0)
                 (filtered host L q showBeta key_version).
Proof.
  intros H. unfold filtered. now apply sorted_by_version.
Qed.

Lemma X9_version_descending_witness :
  StronglySorted (fun a b => codeUnitCompare (version b) (version a) <= 0)
                 (filtered isoHost INLINE_DATA "" true key_version).
Proof.
  exact (X9_version_descending isoHost INLINE_DATA "" true codeUnitCompare_total_preorder).
Defined.

(** *** Stability *)

Section Stable.
Context {A : Type}.
Variable comparefn : A -> A -> option Z.
Variable p : A -> bool.

(** The elements that [p] selects tie with each other. *)
Hypothesis ties : forall a b, p a = true -> p b = true -> SortCompare comparefn a b <= 0.


End Stable.




(** ** Last updated, again *)

(** X11.  On a host that reads the fallback string as time 0, the
    last-updated date depends on the records only as a set: it is the
    same for every permutation of the list, and it does not get earlier
    when records are added. *)
Theorem X11_last_updated_monotone (host : Host) :
  getTime host EPOCH = Some 0 ->
  (forall L1 L2, incl L1 L2 ->
     exists m1 m2, lastUpdated host L1 = Some m1 /\ lastUpdated host L2 = Some m2
                   /\ m1 <= m2)
  /\ (forall L1 L2, Permutation L1 L2 -> lastUpdated host L1 = lastUpdated host L2).
Proof.
  intros H0.
  assert (M : forall L1 L2, incl L1 L2 ->
                exists m1 m2, lastUpdated host L1 = Some m1
                              /\ lastUpdated host L2 = Some m2 /\ m1 <= m2).
  { intros L1 L2 Hi.
    destruct (reduce_from host L1 EPOCH 0 H0) as [m1 [Hm1 [_ [_ Hin1]]]].
    destruct (reduce_from host L2 EPOCH 0 H0) as [m2 [Hm2 [Hle2 [Hub2 _]]]].
    exists m1, m2. split; [exact Hm1|]. split; [exact Hm2|].
    destruct Hin1 as [-> | [r [Hr Ht]]]; [exact Hle2|].
    apply (Hub2 r m1); [now apply Hi | exact Ht]. }
  split; [exact M|].
  intros L1 L2 HP.
  destruct (M L1 L2) as [a [b [Ha [Hb Hab]]]];
    [intros x; now apply Permutation_in|].
  destruct (M L2 L1) as [b' [a' [Hb' [Ha' Hba]]]];
    [intros x; apply Permutation_in; now apply Permutation_sym|].
  rewrite Ha, Hb. rewrite Ha in Ha'. rewrite Hb in Hb'.
  injection Ha' as <-. injection Hb' as <-. f_equal. lia.
Qed.

Lemma X11_last_updated_monotone_witness :
  lastUpdated isoHost (rev INLINE_DATA) = lastUpdated isoHost INLINE_DATA.
Proof.
  destruct (X11_last_updated_monotone isoHost eq_refl) as [_ H].
  apply H. apply Permutation_sym, Permutation_rev.
Defined.

(** ** The release-date cell, again *)





(** ** The grid of cards *)

Lemma renderCard_invalid (host : Host) (r : FirmwareRecord) :
  getTime host (released_at r) = None ->
  renderCard host r = Throw JSDate.RangeError_invalid_time.
Proof.
  intros H. unfold renderCard. now rewrite (releaseDateCell_invalid host r H).
Qed.

Lemma renderCard_valid (host : Host) (r : FirmwareRecord) (t : Z) :
  getTime host (released_at r) = Some t ->
  exists c, renderCard host r = Normal c
            /\ card_heading c = product_name r
            /\ card_version c = version r
            /\ card_release_date c = replace (JSDate.isoString t) ".000Z" "Z".
Proof.
  intros H. unfold renderCard. rewrite (releaseDateCell_valid host r t H).
  eexists. split; [reflexivity|]. now repeat split.
Qed.

Lemma mapCompletion_renderCard (host : Host) (l : list FirmwareRecord) :
  (allDatesValid host l ->
   exists cards, mapCompletion (renderCard host) l = Normal cards
                 /\ map card_heading cards = map product_name l
                 /\ map card_version cards = map version l)
  /\ (~ allDatesValid host l ->
      mapCompletion (renderCard host) l = Throw JSDate.RangeError_invalid_time).
Proof.
  unfold allDatesValid. induction l as [|r l [IHv IHn]]; simpl.
  - split; [intros _; now exists [] | intros H; now contradiction H].
  - destruct (getTime host (released_at r)) as [t|] eqn:Et.
    + destruct (renderCard_valid host r t Et) as [c [Hc [Hh [Hver _]]]].
      rewrite Hc. split.
      * intros Hv. inversion Hv as [|? ? _ Hl]; subst.
        destruct (IHv Hl) as [cards [-> [H1 H2]]].
        exists (c :: cards). simpl. now rewrite Hh, Hver, H1, H2.
      * intros Hn. rewrite IHn; [reflexivity|].
        intros Hl. apply Hn. constructor; [congruence | exact Hl].
    + rewrite (renderCard_invalid host r Et). split; [|reflexivity].
      intros Hv. inversion Hv as [|? ? Hr _]; subst. now contradiction Hr.
Qed.

Lemma allDatesValid_dec (host : Host) (l : list FirmwareRecord) :
  allDatesValid host l \/ ~ allDatesValid host l.
Proof.
  unfold allDatesValid. induction l as [|r l IH]; [left; constructor|].
  destruct (getTime host (released_at r)) as [t|] eqn:Et.
  - destruct IH as [IH | IH].
    + left. constructor; [congruence | exact IH].
    + right. intros H. inversion H; subst. now apply IH.
  - right. intros H. inversion H as [|? ? Hr _]; subst. now contradiction Hr.
Qed.

(** X13.  The grid renders exactly when every record of the filtered
    view has a [released_at] that parses: then there is one card per
    record of the view, in the order of the view; otherwise drawing the
    grid throws the RangeError of [toISOString].  Records that the filters
    hide play no part. *)
Theorem X13_grid_renders_iff_dates_valid (host : Host) (s : State) :
  ((exists cards, renderCards host s = Normal cards) <-> allDatesValid host (view host s))
  /\ (forall cards, renderCards host s = Normal cards ->
        map card_heading cards = map product_name (view host s)
        /\ map card_version cards = map version (view host s)
        /\ List.length cards = List.length (view host s))
  /\ (forall e, renderCards host s = Throw e -> e = JSDate.RangeError_invalid_time).
Proof.
  unfold renderCards.
  destruct (mapCompletion_renderCard host (view host s)) as [Hv Hn].
  pose proof (allDatesValid_dec host (view host s)) as D.
  split; [|split].
  - split.
    + intros [cards Hc]. destruct D as [D | D]; [exact D|].
      rewrite (Hn D) in Hc. discriminate.
    + intros H. destruct (Hv H) as [cards [Hc _]]. now exists cards.
  - intros cards Hc. destruct D as [D | D].
    + destruct (Hv D) as [cards' [Hc' [H1 H2]]]. rewrite Hc in Hc'.
      injection Hc' as <-. split; [exact H1|]. split; [exact H2|].
      rewrite <- (length_map card_heading), H1. apply length_map.
    + rewrite (Hn D) in Hc. discriminate.
  - intros e He. destruct D as [D | D].
    + destruct (Hv D) as [cards [Hc _]]. rewrite Hc in He. discriminate.
    + rewrite (Hn D) in He. now injection He as <-.
Qed.

(** With the sensor record before [undatedSample], the grid throws while
    the undated record is in the view, and renders once the query hides
    it. *)
Example grid_on_undatedSample :
  renderCards isoHost
    (mkState (sensorRecord :: undatedSample) false None "" false key_product_name)
  = Throw (mkExn "RangeError" "Invalid time value")
  /\ (exists cards,
         renderCards isoHost
           (mkState (sensorRecord :: undatedSample) false None "pw-sen" false
                    key_product_name)
         = Normal cards
         /\ map card_release_date cards = ["2025-08-20T09:15:00Z"]).
Proof.
  split; [reflexivity|]. eexists. split; vm_compute; reflexivity.
Qed.

(** ** The newest card and the status line *)

(** The view by release date of a list of valid dates, with the order
    spelled out on the time values. *)
Lemma sort_by_released_at_sorted (host : Host) (l : list FirmwareRecord) :
  allDatesValid host l ->
  StronglySorted
    (fun a b => exists ta tb, getTime host (released_at a) = Some ta
                              /\ getTime host (released_at b) = Some tb /\ tb <= ta)
    (sort (compareFn host key_released_at) l).
Proof.
  intros Hv.
  set (valid := fun r => getTime host (released_at r) <> None).
  assert (V : forall r, valid r -> exists t, getTime host (released_at r) = Some t).
  { intros r Hr. unfold valid in Hr.
    destruct (getTime host (released_at r)) as [t|]; [now exists t | congruence]. }
  assert (Hs : StronglySorted
                 (fun x y => SortCompare (compareFn host key_released_at) x y <= 0)
                 (sort (compareFn host key_released_at) l)).
  { apply (sort_sorted _ valid); [| |exact Hv].
    - intros x y Hx Hy. destruct (V x Hx) as [tx Ex], (V y Hy) as [ty Ey].
      rewrite (SortCompare_released_at host x y tx ty Ex Ey),
              (SortCompare_released_at host y x ty tx Ey Ex). lia.
    - intros x y z Hx Hy Hz.
      destruct (V x Hx) as [tx Ex], (V y Hy) as [ty Ey], (V z Hz) as [tz Ez].
      rewrite (SortCompare_released_at host x y tx ty Ex Ey),
              (SortCompare_released_at host y z ty tz Ey Ez),
              (SortCompare_released_at host x z tx tz Ex Ez). lia. }
  revert Hs. apply StronglySorted_weaken. intros a b Ha Hb Hab.
  unfold allDatesValid in Hv. rewrite Forall_forall in Hv.
  destruct (V a (Hv a (proj1 (sort_In _ l a) Ha))) as [ta Ea].
  destruct (V b (Hv b (proj1 (sort_In _ l b) Hb))) as [tb Eb].
  rewrite (SortCompare_released_at host a b ta tb Ea Eb) in Hab.
  exists ta, tb. repeat split; auto. lia.
Qed.

(** X14.  With show-beta on, an empty query and the sort by release
    date, over a list whose dates all parse, the first card carries the
    last-updated date: when the first record of the view is not older than
    the fallback, its timestamp is the value of [lastUpdated]. *)
Theorem X14_first_card_is_last_updated (host : Host) (L : list FirmwareRecord)
        (q : string) (r : FirmwareRecord) (rest : list FirmwareRecord) (t : Z) :
  getTime host EPOCH = Some 0 ->
  allDatesValid host L ->
  trim q = "" ->
  filtered host L q true key_released_at = r :: rest ->
  getTime host (released_at r) = Some t ->
  0 <= t ->
  lastUpdated host L = Some t.
Proof.
  intros H0 Hv Hq Hview Ht Hpos.
  assert (E : filtered host L q true key_released_at
              = sort (compareFn host key_released_at) L).
  { unfold filtered, filterStep. rewrite (needle_of_blank q Hq).
    rewrite (filter_ext (textPass "") (fun _ => true) textPass_empty), filter_true.
    now rewrite filter_true. }
  pose proof (sort_by_released_at_sorted host L Hv) as Hs.
  rewrite <- E, Hview in Hs. apply StronglySorted_inv in Hs as [_ Hr].
  rewrite Forall_forall in Hr.
  assert (In_view : forall x, In x L <-> In x (r :: rest)).
  { intros x. rewrite <- Hview, E. symmetry. apply sort_In. }
  destruct (reduce_from host L EPOCH 0 H0) as [m [Hm [Hle [Hub Hin]]]].
  unfold lastUpdated, latest. rewrite Hm. f_equal.
  assert (Htm : t <= m) by (apply (Hub r t); [apply In_view; now left | exact Ht]).
  destruct Hin as [-> | [x [Hx Hxm]]]; [lia|].
  apply In_view in Hx. destruct Hx as [<- | Hx]; [congruence|].
  destruct (Hr x Hx) as [ta [tb [Ea [Eb Hab]]]].
  rewrite Ht in Ea. rewrite Hxm in Eb. injection Ea as <-. injection Eb as <-. lia.
Qed.

Lemma X14_first_card_is_last_updated_witness :
  lastUpdated isoHost INLINE_DATA = Some 1755741660000.
Proof.
  assert (Hv : allDatesValid isoHost INLINE_DATA).
  { unfold allDatesValid, INLINE_DATA. repeat constructor; vm_compute; discriminate. }
  refine (X14_first_card_is_last_updated isoHost INLINE_DATA " "
            (mkRecord "PW-SEN-AL7700" "Pacwave PIR Ceiling Sensor" (Some "A2") "beta"
                      "1.5.0-beta.2" "2025-08-21T02:01:00Z" (Some "Adds anti-rollback check."))
            _ 1755741660000 eq_refl Hv eq_refl _ eq_refl _).
  - vm_compute. reflexivity.
  - discriminate.
Defined.
